(** * pipfile-diff: a shallow embedding of [main.py]

    The script compares the [Pipfile.lock] of the base and head revision of a
    pull request and upserts a comment that lists the changed, added and
    removed dependencies.

    Python dictionaries are modelled as stdpp finite maps ([gmap string _]):
    dictionary equality in Python ignores insertion order, and so does [=] on
    [gmap].  Text is modelled as [string], one [ascii] for one character, which
    covers the code points 0 to 255.  Code that
    raises or touches the outside world (environment, working tree, git,
    GitHub) runs in a small state-and-exception monad over a [world]. *)

From Stdlib Require Import ZArith Ascii String List.
From stdpp Require Import base option list strings gmap fin_maps sorting.

Local Open Scope string_scope.

(** ** Python's string operations *)

Module Py.

(** [s.startswith(p)] *)
Fixpoint startswith (s p : string) {struct p} : bool :=
  match p with
  | EmptyString => true
  | String a p' =>
      match s with
      | EmptyString => false
      | String b s' => if Ascii.eqb a b then startswith s' p' else false
      end
  end.

(** [s[n:]] *)
Fixpoint drop (n : nat) (s : string) : string :=
  match n with
  | O => s
  | S n' => match s with EmptyString => EmptyString | String _ s' => drop n' s' end
  end.

(** [s[:n]] *)
Fixpoint take (n : nat) (s : string) : string :=
  match n with
  | O => EmptyString
  | S n' => match s with EmptyString => EmptyString | String a s' => String a (take n' s') end
  end.

(** [s.removeprefix(p)]: [s[len(p):]] when [s] starts with [p], else [s]. *)
Definition removeprefix (s p : string) : string :=
  if startswith s p then drop (String.length p) s else s.

(** [str.isspace] on the code points 0 to 255: TAB, LF, VT, FF, CR, the four
    separators FS, GS, RS, US, the space, NEL (U+0085) and the no-break
    space (U+00A0). *)
Definition isspace (c : ascii) : bool :=
  let n := nat_of_ascii c in
  ((9 <=? n)%nat && (n <=? 13)%nat) || ((28 <=? n)%nat && (n <=? 32)%nat)
  || (n =? 133)%nat || (n =? 160)%nat.

Fixpoint lstrip (s : string) : string :=
  match s with
  | EmptyString => EmptyString
  | String a s' => if isspace a then lstrip s' else s
  end.

Fixpoint rstrip (s : string) : string :=
  match s with
  | EmptyString => EmptyString
  | String a s' =>
      match rstrip s' with
      | EmptyString => if isspace a then EmptyString else String a EmptyString
      | r => String a r
      end
  end.

(** [s.strip()] *)
Definition strip (s : string) : string := rstrip (lstrip s).

(** [sep.join(l)] *)
Fixpoint join (sep : string) (l : list string) : string :=
  match l with
  | [] => EmptyString
  | [x] => x
  | x :: l' => x ++ sep ++ join sep l'
  end.

(** [sorted(xs)] on strings: ascending in the code-point order. *)
Definition sorted (l : list string) : list string := merge_sort String.le l.

End Py.

(** ** Exceptions and results *)

Inductive exn : Type :=
  | KeyError (key : string)
  | FileNotFoundError
  | PermissionError
  | JSONDecodeError
  | BadCredentialsException
  | UnknownObjectException.

Inductive result (A : Type) : Type :=
  | Ok (a : A)
  | Raise (e : exn).
Arguments Ok {A} a.
Arguments Raise {A} e.

(** A file as [open(path)] followed by [json.loads(f.read())] sees it. *)
Inductive file (A : Type) : Type :=
  | NoFile
  | Unreadable
  | NotJson
  | Json (data : A).
Arguments NoFile {A}.
Arguments Unreadable {A}.
Arguments NotJson {A}.
Arguments Json {A} data.

Definition load_json {A} (f : file A) : result A :=
  match f with
  | NoFile => Raise FileNotFoundError
  | Unreadable => Raise PermissionError
  | NotJson => Raise JSONDecodeError
  | Json data => Ok data
  end.

(** ** The lockfile *)

(** One dependency entry: a JSON object whose fields of interest
    ([version], [ref]) hold strings, so that [str] is the identity on them. *)
Abbreviation meta := (gmap string string).
(** A group ([default] or [develop]): dependency name to entry. *)
Abbreviation group := (gmap string meta).
(** The whole document: group name to group. *)
Abbreviation lockdata := (gmap string group).
(** A parsed dependency mapping: name to version descriptor. *)
Abbreviation depmap := (gmap string string).

(** Body of the inner loop of [parse_pipfile_lock] (lines 20-23): the value
    assigned to [deps[name]]. *)
Definition dep_version (m : meta) : result string :=
  if bool_decide (m !! "version" = None) && bool_decide (is_Some (m !! "ref")) then
    match m !! "ref" with
    | Some r => Ok (Py.take 7 r)
    | None => Raise (KeyError "ref")
    end
  else
    match m !! "version" with
    | Some v => Ok (Py.removeprefix v "==")
    | None => Raise (KeyError "version")
    end.

(** One iteration of the inner loop, on the accumulator [deps]. *)
Definition parse_entry (name : string) (m : meta) (acc : result depmap) : result depmap :=
  match acc with
  | Raise e => Raise e
  | Ok d =>
      match dep_version m with
      | Ok v => Ok (<[name := v]> d)
      | Raise e => Raise e
      end
  end.

(** [for name, meta in data[d_type].items(): ...] *)
Definition parse_group (d_type : string) (data : lockdata) (acc : result depmap) : result depmap :=
  match acc with
  | Raise e => Raise e
  | Ok d =>
      match data !! d_type with
      | None => Raise (KeyError d_type)
      | Some g => map_fold parse_entry (Ok d) g
      end
  end.

(** The body of [parse_pipfile_lock], given the state of [Pipfile.lock] in
    the working tree. *)
Definition parse_lockfile (f : file lockdata) : result depmap :=
  match load_json f with
  | Raise e => Raise e
  | Ok data =>
      fold_left (fun acc d_type => parse_group d_type data acc)
                ["default"; "develop"] (Ok ∅)
  end.

(** ** The diff engine *)

(** A value of the [changed] dictionary: [{'base': ..., 'head': ...}]. *)
Record change : Type := Change { c_base : string; c_head : string }.

Global Instance change_eq_dec : EqDecision change.
Proof. solve_decision. Defined.

(** The dictionary comprehension [{k: v for k, v in d.items() if k not in other}]. *)
Definition not_in (other : depmap) (kv : string * string) : Prop := other !! kv.1 = None.

Global Instance not_in_dec other kv : Decision (not_in other kv).
Proof. unfold not_in. apply _. Defined.

Definition get_added_deps (base_deps head_deps : depmap) : depmap :=
  filter (not_in base_deps) head_deps.

(** One iteration of the loop of [get_changed_deps] (lines 50-54). *)
Definition changed_step (head_deps : depmap) (name version : string)
    (data : gmap string change) : gmap string change :=
  match head_deps !! name with
  | Some h =>
      if bool_decide (version ≠ h)
      then <[name := {| c_base := version; c_head := h |}]> data
      else data
  | None => data
  end.

Definition get_changed_deps (base_deps head_deps : depmap) : gmap string change :=
  if bool_decide (base_deps = ∅) then ∅
  else map_fold (changed_step head_deps) ∅ base_deps.

Definition get_removed_deps (base_deps head_deps : depmap) : depmap :=
  filter (not_in head_deps) base_deps.

(** ** The message renderer *)

Definition nl : string := String (ascii_of_nat 10) EmptyString.

Definition marker : string := "<!-- pipfile-diff -->".

Definition header : string :=
  marker ++ nl ++ nl ++ "Dependency changes from `Pipfile.lock`:" ++ nl ++ nl.

(** [f'{k} {v["base"]} => {v["head"]}'] *)
Definition changed_line (kv : string * change) : string :=
  kv.1 ++ " " ++ c_base kv.2 ++ " => " ++ c_head kv.2.

(** [f'{k}=={v}'] *)
Definition pinned_line (kv : string * string) : string :=
  kv.1 ++ "==" ++ kv.2.

(** [sorted({fmt(k, v) for k, v in d.items()})]: the lines are collected in
    a set, which is then sorted. *)
Definition sorted_lines {V} (fmt : string * V → string) (d : gmap string V) : list string :=
  Py.sorted (elements (list_to_set (C := gset string) (fmt <$> map_to_list d))).

(** [f'**{title}**\n```\n{txt.strip()}\n```\n'] with
    [txt = '\n'.join(lines)]. *)
Definition section (title : string) (lines : list string) : string :=
  "**" ++ title ++ "**" ++ nl ++ "```" ++ nl
    ++ Py.strip (Py.join nl lines) ++ nl ++ "```" ++ nl.

Definition generate_message (changed : gmap string change) (added removed : depmap) : string :=
  let msg := header in
  let msg := if bool_decide (changed ≠ ∅)
             then msg ++ section "Changed" (sorted_lines changed_line changed) else msg in
  let msg := if bool_decide (added ≠ ∅)
             then msg ++ section "Added" (sorted_lines pinned_line added) else msg in
  let msg := if bool_decide (removed ≠ ∅)
             then msg ++ section "Removed" (sorted_lines pinned_line removed) else msg in
  msg.

(** ** The world the script runs in *)

(** A pull-request comment on the host. *)
Record comment : Type := Comment { id : Z; body : string }.

(** The hosting service, as far as one run can see it: which credentials it
    accepts, the one repository and pull request it knows, that pull
    request's comments in listing order, and the identifier it gives to the
    next comment created. *)
Record github : Type := Github {
  accepts : string → bool;
  repo_name : string;
  pull_number : Z;
  comments : list comment;
  next_id : Z
}.

(** Requests sent to the hosting service. *)
Inductive api_call : Type :=
  | GetRepo (name : string)
  | GetPull (number : Z)
  | ListComments
  | GetComment (cid : Z)
  | EditComment (cid : Z) (text : string)
  | CreateComment (text : string).

(** [git] is the external command: from its arguments and the
    [Pipfile.lock] of the working tree it gives an exit status and the
    [Pipfile.lock] it leaves behind. *)
Record world : Type := World {
  environ : gmap string string;
  git : list string → file lockdata → Z * file lockdata;
  pipfile_lock : file lockdata;
  event_files : string → file (gmap string Z);
  hub : github;
  stdout : list string;
  api_log : list api_call
}.

(** State and exceptions: a raised exception keeps the effects made so far. *)
Definition M (A : Type) : Type := world → result A * world.

Definition ret {A} (a : A) : M A := fun w => (Ok a, w).

Definition bind {A B} (c : M A) (k : A → M B) : M B :=
  fun w => match c w with
           | (Ok a, w') => k a w'
           | (Raise e, w') => (Raise e, w')
           end.

Definition raise {A} (e : exn) : M A := fun w => (Raise e, w).

Declare Scope py_scope.
Delimit Scope py_scope with py.
Notation "'let*' x := c 'in' k" := (bind c (fun x => k))
  (at level 10, x name, c at level 100, k at level 200, only parsing) : py_scope.
Notation "c >> k" := (bind c (fun _ => k))
  (at level 100, k at level 200, only parsing, right associativity) : py_scope.

Local Open Scope py_scope.

(** [os.environ[name]] *)
Definition getenv (name : string) : M string :=
  fun w => match environ w !! name with
           | Some v => (Ok v, w)
           | None => (Raise (KeyError name), w)
           end.

(** [print(line)] *)
Definition print (line : string) : M unit :=
  fun w => (Ok tt,
            {| environ := environ w; git := git w; pipfile_lock := pipfile_lock w;
               event_files := event_files w; hub := hub w;
               stdout := stdout w ++ [line]; api_log := api_log w |}).

(** [subprocess.run(args, stdout=subprocess.PIPE)]: runs the command, which
    may rewrite the working tree, and gives back its exit status. *)
Definition subprocess_run (args : list string) : M Z :=
  fun w => let r := git w args (pipfile_lock w) in
           (Ok r.1,
            {| environ := environ w; git := git w; pipfile_lock := r.2;
               event_files := event_files w; hub := hub w;
               stdout := stdout w; api_log := api_log w |}).

(** [parse_pipfile_lock()]: reads [Pipfile.lock] from the working tree. *)
Definition parse_pipfile_lock : M depmap :=
  fun w => (parse_lockfile (pipfile_lock w), w).

(** [json.loads(open(path).read())] for the event payload. *)
Definition read_event (path : string) : M (gmap string Z) :=
  fun w => (load_json (event_files w path), w).

(** [d[key]] *)
Definition getitem {V} (d : gmap string V) (key : string) : M V :=
  match d !! key with
  | Some v => ret v
  | None => raise (KeyError key)
  end.

(** Sending one request: it is logged, then the host answers. *)
Definition request {A} (c : api_call) (answer : github → result A * github) : M A :=
  fun w => let r := answer (hub w) in
           (r.1,
            {| environ := environ w; git := git w; pipfile_lock := pipfile_lock w;
               event_files := event_files w; hub := r.2;
               stdout := stdout w; api_log := api_log w ++ [c] |}).

(** [Github(token).get_repo(name)] *)
Definition get_repo (token name : string) : M unit :=
  request (GetRepo name) (fun g =>
    if negb (accepts g token) then (Raise BadCredentialsException, g)
    else if bool_decide (name = repo_name g) then (Ok tt, g)
    else (Raise UnknownObjectException, g)).

(** [repo.get_pull(number)] *)
Definition get_pull (number : Z) : M unit :=
  request (GetPull number) (fun g =>
    if bool_decide (number = pull_number g) then (Ok tt, g)
    else (Raise UnknownObjectException, g)).

(** [pull.get_issue_comments()] *)
Definition get_issue_comments : M (list comment) :=
  request ListComments (fun g => (Ok (comments g), g)).

(** The loop of lines 109-113: the identifier of the first comment whose
    body starts with the marker. *)
Fixpoint find_existing (cs : list comment) : option Z :=
  match cs with
  | [] => None
  | c :: cs' =>
      if Py.startswith (body c) marker then Some (id c) else find_existing cs'
  end.

(** Python's truth value of [existing_issue_id]: [None] and [0] are false. *)
Definition truthy (o : option Z) : bool :=
  match o with
  | Some n => negb (n =? 0)%Z
  | None => false
  end.

(** The host replaces the body of the comment that has identifier [cid]. *)
Fixpoint edit_body (cid : Z) (text : string) (cs : list comment) : list comment :=
  match cs with
  | [] => []
  | c :: cs' =>
      if bool_decide (id c = cid) then {| id := cid; body := text |} :: cs'
      else c :: edit_body cid text cs'
  end.

Definition set_comments (g : github) (cs : list comment) (next : Z) : github :=
  {| accepts := accepts g; repo_name := repo_name g; pull_number := pull_number g;
     comments := cs; next_id := next |}.

(** [pull.get_issue_comment(cid)] *)
Definition get_issue_comment (cid : Z) : M Z :=
  request (GetComment cid) (fun g =>
    if bool_decide (cid ∈ id <$> comments g) then (Ok cid, g)
    else (Raise UnknownObjectException, g)).

(** [comment.edit(message)]; the host is taken to accept the write. *)
Definition edit (cid : Z) (message : string) : M unit :=
  request (EditComment cid message) (fun g =>
    (Ok tt, set_comments g (edit_body cid message (comments g)) (next_id g))).

(** [pull.create_issue_comment(message)]; the host is taken to accept the
    write. *)
Definition create_issue_comment (message : string) : M unit :=
  request (CreateComment message) (fun g =>
    (Ok tt, set_comments g (comments g ++ [{| id := next_id g; body := message |}])
                         (next_id g + 1))).

Definition create_comment (message : string) : M unit :=
  let* path := getenv "GITHUB_EVENT_PATH" in
  let* event_data := read_event path in
  let* token := getenv "INPUT_REPO-TOKEN" in
  let* name := getenv "GITHUB_REPOSITORY" in
  get_repo token name >>
  let* number := getitem event_data "number" in
  get_pull number >>
  let* cs := get_issue_comments in
  let existing_issue_id := find_existing cs in
  if truthy existing_issue_id then
    match existing_issue_id with
    | Some cid => let* c := get_issue_comment cid in edit c message
    | None => ret tt
    end
  else create_issue_comment message.

Definition run : M unit :=
  print "Running `git fetch origin --no-tags --prune --unshallow`" >>
  let* base_ref := getenv "GITHUB_BASE_REF" in
  subprocess_run ["git"; "fetch"; "origin"; base_ref; "--no-tags"; "--prune"; "--unshallow"] >>
  let* base_sha := getenv "INPUT_BASE-SHA" in
  print ("Checking out base revision " ++ base_sha) >>
  subprocess_run ["git"; "checkout"; base_sha] >>
  let* base_deps := parse_pipfile_lock in
  let* head_sha := getenv "INPUT_HEAD-SHA" in
  print ("Checking out head revision " ++ head_sha) >>
  subprocess_run ["git"; "checkout"; head_sha] >>
  let* head_deps := parse_pipfile_lock in
  if bool_decide (head_deps = base_deps) then
    print "No dependency changes."
  else
    let changed_deps := get_changed_deps base_deps head_deps in
    let added_deps := get_added_deps base_deps head_deps in
    let removed_deps := get_removed_deps base_deps head_deps in
    let msg := generate_message changed_deps added_deps removed_deps in
    create_comment msg.

(** The status the interpreter exits with: an uncaught exception gives 1. *)
Definition exit_status {A} (r : result A) : Z :=
  match r with
  | Ok _ => 0
  | Raise _ => 1
  end.

(** ** Specification vocabulary *)

(** An entry is usable when it has a [version] or a [ref] field. *)
Definition usable (m : meta) : Prop := is_Some (m !! "version") ∨ is_Some (m !! "ref").

(** State of the accumulator after the inner loop has gone through the
    entries of [g], whatever the order. *)
Definition loop_inv (d : depmap) (r : result depmap) (g : group) : Prop :=
  match r with
  | Ok d' =>
      map_Forall (fun _ m => usable m) g
      ∧ ∀ n, match g !! n with
             | Some m => dep_version m = Ok (default "" (d' !! n)) ∧ is_Some (d' !! n)
             | None => d' !! n = d !! n
             end
  | Raise e => e = KeyError "version" ∧ ¬ map_Forall (fun _ m => usable m) g
  end.

Global Instance usable_dec (m : meta) : Decision (usable m).
Proof. unfold usable. apply _. Defined.

(** [l] holds the formatted lines of [d], each once, in ascending order. *)
Definition sorted_unique_lines {V} (fmt : string * V → string) (d : gmap string V)
    (l : list string) : Prop :=
  StronglySorted String.le l
  ∧ NoDup l
  ∧ ∀ x, x ∈ l ↔ ∃ k v, d !! k = Some v ∧ x = fmt (k, v).

(** A section of the message as the specification draws it: the title in
    bold, then the fenced text. *)
Definition fenced (title text : string) : string :=
  "**" ++ title ++ "**" ++ nl ++ "```" ++ nl ++ text ++ nl ++ "```" ++ nl.

(** The message as the specification words it: in each section the sorted
    lines, each once, joined by newlines and nothing more. *)
Definition rendered_as_joined_lines (changed : gmap string change)
    (added removed : depmap) : Prop :=
  ∃ lc la lr : list string,
    sorted_unique_lines changed_line changed lc
    ∧ sorted_unique_lines pinned_line added la
    ∧ sorted_unique_lines pinned_line removed lr
    ∧ generate_message changed added removed =
        header
        ++ (if bool_decide (changed = ∅) then "" else fenced "Changed" (Py.join nl lc))
        ++ (if bool_decide (added = ∅) then "" else fenced "Added" (Py.join nl la))
        ++ (if bool_decide (removed = ∅) then "" else fenced "Removed" (Py.join nl lr)).

(** The texts of the comments that a sequence of requests posts or edits. *)
Fixpoint posted (calls : list api_call) : list string :=
  match calls with
  | [] => []
  | EditComment _ text :: calls' => text :: posted calls'
  | CreateComment text :: calls' => text :: posted calls'
  | _ :: calls' => posted calls'
  end.

(** A comment is marked when its body starts with the sentinel. *)
Definition marked (c : comment) : Prop := Py.startswith (body c) marker = true.

Global Instance marked_dec c : Decision (marked c).
Proof. unfold marked. apply _. Defined.

Definition count_marked (cs : list comment) : nat := length (filter marked cs).

(** What the hosting service guarantees about identifiers: they are positive,
    distinct, and smaller than the next one it hands out. *)
Definition host_ok (g : github) : Prop :=
  NoDup (id <$> comments g)
  ∧ Forall (fun c => (0 < id c < next_id g)%Z) (comments g)
  ∧ (0 < next_id g)%Z.

(** The same world with one more request in the log. *)
Definition logged (c : api_call) (w : world) : world :=
  {| environ := environ w; git := git w; pipfile_lock := pipfile_lock w;
     event_files := event_files w; hub := hub w; stdout := stdout w;
     api_log := api_log w ++ [c] |}.

(** The same world with the exit status of every command replaced. *)
Definition with_exit_status (status : list string → Z) (w : world) : world :=
  {| environ := environ w;
     git := fun args f => (status args, (git w args f).2);
     pipfile_lock := pipfile_lock w; event_files := event_files w; hub := hub w;
     stdout := stdout w; api_log := api_log w |}.

(** A computation that cannot tell which exit status the commands give. *)
Definition indifferent {A} (c : M A) : Prop :=
  ∀ status w, c (with_exit_status status w) = ((c w).1, with_exit_status status (c w).2).

(** The run ends with an exception and has sent no request. *)
Definition aborts_without_request (w : world) : Prop :=
  ∃ e w', run w = (Raise e, w') ∧ api_log w' = api_log w ∧ hub w' = hub w.

(** The arguments of the three commands of [run]. *)
Definition fetch_args (base_ref : string) : list string :=
  ["git"; "fetch"; "origin"; base_ref; "--no-tags"; "--prune"; "--unshallow"].
Definition checkout_args (sha : string) : list string := ["git"; "checkout"; sha].

(** [Pipfile.lock] in the working tree after the fetch, after the checkout of
    the base revision, and after the checkout of the head revision. *)
Definition fetched_tree (w : world) (base_ref : string) : file lockdata :=
  (git w (fetch_args base_ref) (pipfile_lock w)).2.
Definition base_tree (w : world) (base_ref base_sha : string) : file lockdata :=
  (git w (checkout_args base_sha) (fetched_tree w base_ref)).2.
Definition head_tree (w : world) (base_ref base_sha head_sha : string) : file lockdata :=
  (git w (checkout_args head_sha) (base_tree w base_ref base_sha)).2.

(** A file that is missing, cannot be read, or does not hold JSON. *)
Definition unusable {A} (f : file A) : Prop :=
  match f with
  | Json _ => False
  | _ => True
  end.

(** Replaying a diff on the base mapping: the added names, then the head
    versions of the changed names, then what the base keeps. *)
Definition apply_diff (base_deps : depmap) (changed : gmap string change)
    (added removed : depmap) : depmap :=
  added ∪ ((c_head <$> changed) ∪ (base_deps ∖ removed)).

(** A change read in the other direction. *)
Definition swap_change (c : change) : change :=
  {| c_base := c_head c; c_head := c_base c |}.

(** The same world with more requests in the log, and with another host. *)
Definition with_log (calls : list api_call) (w : world) : world :=
  {| environ := environ w; git := git w; pipfile_lock := pipfile_lock w;
     event_files := event_files w; hub := hub w; stdout := stdout w;
     api_log := api_log w ++ calls |}.

Definition with_hub (g : github) (w : world) : world :=
  {| environ := environ w; git := git w; pipfile_lock := pipfile_lock w;
     event_files := event_files w; hub := g; stdout := stdout w;
     api_log := api_log w |}.

(** The world after a successful upsert of [message]: the first marked
    comment edited in place, or a new comment appended. *)
Definition upserted (message : string) (w : world) : world :=
  let g := hub w in
  match list_find marked (comments g) with
  | Some (i, c) =>
      with_hub (set_comments g (<[i := {| id := id c; body := message |}]> (comments g))
                             (next_id g))
        (with_log [GetRepo (repo_name g); GetPull (pull_number g); ListComments;
                   GetComment (id c); EditComment (id c) message] w)
  | None =>
      with_hub (set_comments g (comments g ++ [{| id := next_id g; body := message |}])
                             (next_id g + 1))
        (with_log [GetRepo (repo_name g); GetPull (pull_number g); ListComments;
                   CreateComment message] w)
  end.

(** The environment, the event payload and the credentials are such that the
    host answers the three lookups of [create_comment]. *)
Definition ready (w : world) : Prop :=
  ∃ path event_data token,
    environ w !! "GITHUB_EVENT_PATH" = Some path
    ∧ event_files w path = Json event_data
    ∧ environ w !! "INPUT_REPO-TOKEN" = Some token
    ∧ environ w !! "GITHUB_REPOSITORY" = Some (repo_name (hub w))
    ∧ accepts (hub w) token = true
    ∧ event_data !! "number" = Some (pull_number (hub w)).

(** ** A concrete world *)

Module Example.

(** A git that knows the lockfile of some revisions: [checkout] of a known
    revision puts its lockfile in the working tree and exits with 0, of an
    unknown one leaves the tree alone and exits with 1; [fetch] exits with
    [fetch_status] (128 when the clone is already complete). *)
Definition git_sim (revisions : gmap string (file lockdata)) (fetch_status : Z)
    (args : list string) (tree : file lockdata) : Z * file lockdata :=
  match args with
  | [_; cmd; sha] =>
      if bool_decide (cmd = "checkout") then
        match revisions !! sha with
        | Some f => (0%Z, f)
        | None => (1%Z, tree)
        end
      else (1%Z, tree)
  | _ => (fetch_status, tree)
  end.

Definition pinned (name version : string) : group :=
  {[ name := {[ "version" := version ]} ]}.

Definition lock (default_g develop_g : group) : file lockdata :=
  Json (<[ "default" := default_g ]> (<[ "develop" := develop_g ]> ∅)).

Definition lock_v1 : file lockdata := lock (pinned "foo" "==1.0.0") ∅.
Definition lock_v2 : file lockdata := lock (pinned "foo" "==2.0.0") ∅.

Definition env : gmap string string :=
  list_to_map [("GITHUB_BASE_REF", "main"); ("INPUT_BASE-SHA", "aaa");
               ("INPUT_HEAD-SHA", "bbb"); ("GITHUB_EVENT_PATH", "/event.json");
               ("INPUT_REPO-TOKEN", "secret"); ("GITHUB_REPOSITORY", "o/r")].

Definition events (path : string) : file (gmap string Z) :=
  if bool_decide (path = "/event.json") then Json {[ "number" := 7%Z ]} else NoFile.

Definition host (cs : list comment) : github :=
  {| accepts := fun t => bool_decide (t = "secret"); repo_name := "o/r";
     pull_number := 7; comments := cs; next_id := 100 |}.

Definition make (revisions : gmap string (file lockdata)) (fetch_status : Z)
    (tree : file lockdata) (cs : list comment) : world :=
  {| environ := env; git := git_sim revisions fetch_status; pipfile_lock := tree;
     event_files := events; hub := host cs; stdout := []; api_log := [] |}.

(** Both revisions are there and the fetch succeeds. *)
Definition healthy (base_lock head_lock : file lockdata) (cs : list comment) : world :=
  make (<[ "aaa" := base_lock ]> (<[ "bbb" := head_lock ]> ∅)) 0 NoFile cs.

(** The fetch exits with 128 and the base revision is unknown, so that its
    checkout exits with 1 and leaves the tree as it was. *)
Definition broken_vcs : world :=
  make (<[ "bbb" := lock_v2 ]> ∅) 128 lock_v1 [].

Definition foo_changed : string :=
  header ++ fenced "Changed" "foo 1.0.0 => 2.0.0".

(** A pull request with three comments, two of them marked. *)
Definition thread : list comment :=
  [ {| id := 5; body := "LGTM" |};
    {| id := 6; body := marker ++ nl ++ "old" |};
    {| id := 9; body := marker ++ " stale" |} ].

(** A document in which [foo] is in both groups and [bar] is pinned to a
    commit. *)
Definition default_group : group :=
  <[ "foo" := {[ "version" := "==1.0.0" ]} ]>
    {[ "bar" := {[ "ref" := "0123456789abcdef" ]} ]}.
Definition develop_group : group := pinned "foo" "==2.0.0".
Definition both_groups : lockdata :=
  <[ "default" := default_group ]> (<[ "develop" := develop_group ]> ∅).

(** Added dependencies whose lines carry white space at an end of the
    joined text: a name that starts with a space, a version that ends with
    one. *)
Definition spaced_name : depmap := <[ " b" := "1" ]> {[ "a" := "1" ]}.
Definition spaced_version : depmap := <[ "a" := "=1 " ]> {[ "a=" := "1" ]}.

(** The same world with one environment variable set, or unset. *)
Definition setenv (name value : string) (w : world) : world :=
  {| environ := <[ name := value ]> (environ w); git := git w;
     pipfile_lock := pipfile_lock w; event_files := event_files w; hub := hub w;
     stdout := stdout w; api_log := api_log w |}.

Definition unsetenv (name : string) (w : world) : world :=
  {| environ := delete name (environ w); git := git w;
     pipfile_lock := pipfile_lock w; event_files := event_files w; hub := hub w;
     stdout := stdout w; api_log := api_log w |}.

(** No revision is known to git, so that both checkouts fail and leave the
    lockfile of the working tree alone. *)
Definition no_revisions : world := make ∅ 128 lock_v1 thread.

End Example.

(** * Properties *)

(** ** Diff engine *)

Section diff_engine.
Implicit Types base_deps head_deps : depmap.

Lemma lookup_added base_deps head_deps k :
  get_added_deps base_deps head_deps !! k =
    match base_deps !! k with
    | None => head_deps !! k
    | Some _ => None
    end.
Proof.
  unfold get_added_deps. apply option_eq. intros v.
  rewrite map_lookup_filter_Some. unfold not_in; simpl.
  destruct (base_deps !! k); intuition congruence.
Qed.

Lemma lookup_removed base_deps head_deps k :
  get_removed_deps base_deps head_deps !! k =
    match head_deps !! k with
    | None => base_deps !! k
    | Some _ => None
    end.
Proof. apply (lookup_added head_deps base_deps). Qed.

(** What the loop of [get_changed_deps] has built after any number of
    iterations. *)
Lemma lookup_changed_loop base_deps head_deps k :
  map_fold (changed_step head_deps) ∅ base_deps !! k =
    match base_deps !! k, head_deps !! k with
    | Some b, Some h =>
        if bool_decide (b = h) then None else Some {| c_base := b; c_head := h |}
    | _, _ => None
    end.
Proof.
  revert k.
  apply (map_fold_weak_ind
           (fun (r : gmap string change) (m : depmap) => ∀ k, r !! k =
              match m !! k, head_deps !! k with
              | Some b, Some h =>
                  if bool_decide (b = h) then None
                  else Some {| c_base := b; c_head := h |}
              | _, _ => None
              end)).
  - intros k. by rewrite !lookup_empty.
  - intros i x m r Hi IH k. unfold changed_step.
    destruct (decide (k = i)) as [->|Hne].
    + rewrite lookup_insert_eq. destruct (head_deps !! i) as [h|] eqn:Hh.
      * destruct (decide (x = h)) as [->|Hxh].
        -- rewrite bool_decide_false by tauto. rewrite bool_decide_true by done.
           rewrite IH, Hi. done.
        -- rewrite bool_decide_true by done. rewrite (bool_decide_false (x = h)) by done.
           by rewrite lookup_insert_eq.
      * rewrite IH, Hi. done.
    + rewrite (lookup_insert_ne m) by done. rewrite <- IH.
      destruct (head_deps !! i); [|done].
      case_bool_decide; [|done]. by rewrite lookup_insert_ne.
Qed.

Lemma lookup_changed base_deps head_deps k :
  get_changed_deps base_deps head_deps !! k =
    match base_deps !! k, head_deps !! k with
    | Some b, Some h =>
        if bool_decide (b = h) then None else Some {| c_base := b; c_head := h |}
    | _, _ => None
    end.
Proof.
  unfold get_changed_deps. case_bool_decide as He.
  - subst. by rewrite !lookup_empty.
  - apply lookup_changed_loop.
Qed.

(** Two mappings that differ have a key on which they differ. *)
Lemma diff_nonempty base_deps head_deps :
  base_deps ≠ head_deps →
  get_changed_deps base_deps head_deps ≠ ∅
  ∨ get_added_deps base_deps head_deps ≠ ∅
  ∨ get_removed_deps base_deps head_deps ≠ ∅.
Proof.
  intros Hne.
  destruct (decide (get_changed_deps base_deps head_deps = ∅)) as [Hc|]; [|by left].
  destruct (decide (get_added_deps base_deps head_deps = ∅)) as [Ha|]; [|by right; left].
  destruct (decide (get_removed_deps base_deps head_deps = ∅)) as [Hr|]; [|by right; right].
  exfalso. apply Hne. apply map_eq. intros k.
  pose proof (lookup_changed base_deps head_deps k) as Ek.
  pose proof (lookup_added base_deps head_deps k) as Ak.
  pose proof (lookup_removed base_deps head_deps k) as Rk.
  rewrite Hc, lookup_empty in Ek. rewrite Ha, lookup_empty in Ak.
  rewrite Hr, lookup_empty in Rk.
  destruct (base_deps !! k) as [b|], (head_deps !! k) as [h|]; try done.
  case_bool_decide; congruence.
Qed.

End diff_engine.

(** ** Lockfile parser *)

Section parser.

Lemma startswith_app (p s : string) : Py.startswith (p ++ s) p = true.
Proof.
  induction p as [|a p IH]; simpl; [done|].
  rewrite Ascii.eqb_refl. exact IH.
Qed.

Lemma drop_app (p s : string) : Py.drop (String.length p) (p ++ s) = s.
Proof. induction p as [|a p IH]; simpl; [done | exact IH]. Qed.

Lemma removeprefix_app (p s : string) : Py.removeprefix (p ++ s) p = s.
Proof. unfold Py.removeprefix. by rewrite startswith_app, drop_app. Qed.

Lemma removeprefix_other (p s : string) :
  Py.startswith s p = false → Py.removeprefix s p = s.
Proof. unfold Py.removeprefix. by intros ->. Qed.

Lemma str_take_drop (n : nat) (s : string) : Py.take n s ++ Py.drop n s = s.
Proof.
  revert s. induction n as [|n IH]; intros [|a s]; simpl; try done.
  exact (f_equal (String a) (IH s)).
Qed.

Lemma str_take_length (n : nat) (s : string) :
  String.length (Py.take n s) = Nat.min n (String.length s).
Proof.
  revert s. induction n as [|n IH]; intros [|a s]; simpl; try done.
  by rewrite IH.
Qed.

Lemma dep_version_version (m : meta) v :
  m !! "version" = Some v → dep_version m = Ok (Py.removeprefix v "==").
Proof. unfold dep_version. intros ->. by rewrite bool_decide_false. Qed.

Lemma dep_version_ref (m : meta) r :
  m !! "version" = None → m !! "ref" = Some r → dep_version m = Ok (Py.take 7 r).
Proof.
  unfold dep_version. intros -> ->.
  rewrite bool_decide_true by done.
  rewrite (bool_decide_true (is_Some (Some r))) by eauto. done.
Qed.

Lemma dep_version_neither (m : meta) :
  m !! "version" = None → m !! "ref" = None →
  dep_version m = Raise (KeyError "version").
Proof.
  unfold dep_version. intros -> ->.
  rewrite (bool_decide_false (is_Some None)) by (by intros [? ?]).
  by rewrite andb_false_r.
Qed.

Lemma dep_version_usable (m : meta) : usable m → ∃ v, dep_version m = Ok v.
Proof.
  unfold usable. intros Hu. destruct (m !! "version") as [v|] eqn:Hv.
  - eauto using dep_version_version.
  - destruct Hu as [[? ?]|[r Hr]]; [done|]. eauto using dep_version_ref.
Qed.

Lemma dep_version_raises (m : meta) e :
  dep_version m = Raise e → e = KeyError "version" ∧ ¬ usable m.
Proof.
  intros He. destruct (m !! "version") as [v|] eqn:Hv.
  - by rewrite (dep_version_version m v) in He.
  - destruct (m !! "ref") as [r|] eqn:Hr.
    + by rewrite (dep_version_ref m r) in He.
    + rewrite dep_version_neither in He by done. split; [congruence|].
      unfold usable. rewrite Hv, Hr. by intros [[? ?]|[? ?]].
Qed.

Lemma parse_entries_inv (d : depmap) (g : group) :
  loop_inv d (map_fold parse_entry (Ok d) g) g.
Proof.
  apply (map_fold_weak_ind (loop_inv d)).
  - split; [apply map_Forall_empty|]. intros n. by rewrite lookup_empty.
  - intros i x m r Hi IH. unfold parse_entry. destruct r as [d'|e]; simpl in *.
    + destruct IH as [Hall Hl]. destruct (dep_version x) as [v|e] eqn:Hx; simpl.
      * split.
        -- apply map_Forall_insert_2; [|done].
           destruct (decide (usable x)) as [|Hn]; [done|].
           destruct (x !! "version") eqn:Hv, (x !! "ref") eqn:Hr;
             try (exfalso; apply Hn; unfold usable; rewrite ?Hv, ?Hr; eauto; fail).
           by rewrite dep_version_neither in Hx.
        -- intros n. destruct (decide (n = i)) as [->|Hne].
           ++ rewrite !lookup_insert_eq. simpl. eauto.
           ++ rewrite !lookup_insert_ne by done. apply Hl.
      * apply dep_version_raises in Hx as [-> Hn]. split; [done|].
        intros Hall'. by apply map_Forall_insert_1_1 in Hall'.
    + destruct IH as [-> Hn]. split; [done|].
      intros Hall'. apply Hn. by apply map_Forall_insert_1_2 in Hall'.
Qed.

Lemma parse_lockfile_groups data (default_g develop_g : group) :
  data !! "default" = Some default_g → data !! "develop" = Some develop_g →
  parse_lockfile (Json data) =
    match map_fold parse_entry (Ok ∅) default_g with
    | Ok d => map_fold parse_entry (Ok d) develop_g
    | Raise e => Raise e
    end.
Proof.
  intros H1 H2. unfold parse_lockfile; simpl. unfold parse_group. rewrite H1.
  destruct (map_fold parse_entry (Ok ∅) default_g); [|done].
  by rewrite H2.
Qed.

End parser.

(** ** Message renderer *)

Section renderer.

Lemma str_app_assoc (a b c : string) : (a ++ b) ++ c = a ++ (b ++ c).
Proof.
  induction a as [|x a IH]; [done|].
  exact (f_equal (String x) IH).
Qed.

Lemma str_app_nil_r (a : string) : a ++ "" = a.
Proof.
  induction a as [|x a IH]; [done|].
  exact (f_equal (String x) IH).
Qed.

Lemma str_app_length (a b : string) :
  String.length (a ++ b) = String.length a + String.length b.
Proof.
  induction a as [|x a IH]; [done|].
  exact (f_equal S IH).
Qed.

Lemma startswith_app_l (s p t : string) :
  Py.startswith s p = true → Py.startswith (s ++ t) p = true.
Proof.
  revert s. induction p as [|a p IH]; intros s; simpl; [done|].
  destruct s as [|b s]; [done|].
  change (String b s ++ t) with (String b (s ++ t)). simpl.
  destruct (Ascii.eqb a b); [apply IH | done].
Qed.

Lemma sorted_lines_spec {V} (fmt : string * V → string) (d : gmap string V) :
  sorted_unique_lines fmt d (sorted_lines fmt d).
Proof.
  unfold sorted_unique_lines, sorted_lines, Py.sorted. split; [|split].
  - apply (StronglySorted_merge_sort String.le).
  - rewrite merge_sort_Permutation. apply NoDup_elements.
  - intros x. rewrite merge_sort_Permutation, elem_of_elements,
      elem_of_list_to_set, list_elem_of_fmap. split.
    + intros [[k v] [-> Hkv]]. apply elem_of_map_to_list in Hkv. eauto.
    + intros (k & v & Hkv & ->). exists (k, v). split; [done|].
      by apply elem_of_map_to_list.
Qed.

(** The sorted lines do not depend on the algorithm: there is one
    ascending list without repetition for a given set of lines. *)
Lemma sorted_unique_lines_unique {V} (fmt : string * V → string) d l1 l2 :
  sorted_unique_lines fmt d l1 → sorted_unique_lines fmt d l2 → l1 = l2.
Proof.
  intros (S1 & N1 & M1) (S2 & N2 & M2).
  apply (StronglySorted_unique String.le); [done..|].
  apply NoDup_Permutation; [done..|]. intros x. by rewrite M1, M2.
Qed.

Lemma section_fenced title lines :
  section title lines = fenced title (Py.strip (Py.join nl lines)).
Proof. reflexivity. Qed.

Lemma generate_message_sections changed added removed :
  generate_message changed added removed =
    header
    ++ (if bool_decide (changed = ∅) then ""
        else section "Changed" (sorted_lines changed_line changed))
    ++ (if bool_decide (added = ∅) then ""
        else section "Added" (sorted_lines pinned_line added))
    ++ (if bool_decide (removed = ∅) then ""
        else section "Removed" (sorted_lines pinned_line removed)).
Proof.
  unfold generate_message.
  destruct (decide (changed = ∅)) as [Hc|Hc];
    destruct (decide (added = ∅)) as [Ha|Ha];
    destruct (decide (removed = ∅)) as [Hr|Hr];
    rewrite ?(bool_decide_true (changed = ∅)), ?(bool_decide_false (changed = ∅)),
      ?(bool_decide_true (added = ∅)), ?(bool_decide_false (added = ∅)),
      ?(bool_decide_true (removed = ∅)), ?(bool_decide_false (removed = ∅)),
      ?(bool_decide_true (changed ≠ ∅)), ?(bool_decide_false (changed ≠ ∅)),
      ?(bool_decide_true (added ≠ ∅)), ?(bool_decide_false (added ≠ ∅)),
      ?(bool_decide_true (removed ≠ ∅)), ?(bool_decide_false (removed ≠ ∅))
      by tauto;
    rewrite ?str_app_assoc, ?str_app_nil_r; reflexivity.
Qed.

Lemma header_startswith_marker : Py.startswith header marker = true.
Proof. reflexivity. Qed.

Lemma generate_message_startswith changed added removed :
  Py.startswith (generate_message changed added removed) marker = true.
Proof.
  rewrite generate_message_sections. apply startswith_app_l, header_startswith_marker.
Qed.

Lemma section_length title lines : 0 < String.length (section title lines).
Proof. unfold section. rewrite str_app_length. simpl. lia. Qed.

(** A message with a section is longer than the bare header. *)
Lemma generate_message_longer changed added removed :
  changed ≠ ∅ ∨ added ≠ ∅ ∨ removed ≠ ∅ →
  String.length header < String.length (generate_message changed added removed).
Proof.
  intros H. rewrite generate_message_sections. rewrite !str_app_length.
  pose proof (section_length "Changed" (sorted_lines changed_line changed)).
  pose proof (section_length "Added" (sorted_lines pinned_line added)).
  pose proof (section_length "Removed" (sorted_lines pinned_line removed)).
  repeat case_bool_decide; simpl; try lia. tauto.
Qed.

End renderer.

(** ** Comment upsert *)

Section upsert.
Implicit Types cs : list comment.

(** The loop finds what [list_find] finds. *)
Lemma find_existing_list_find cs :
  find_existing cs = (fun ic => id ic.2) <$> list_find marked cs.
Proof.
  induction cs as [|c cs IH]; [done|]. cbn [find_existing list_find].
  destruct (decide (marked c)) as [Hc|Hc]; unfold marked in Hc.
  - by rewrite Hc.
  - apply not_true_is_false in Hc. rewrite Hc, IH.
    by destruct (list_find marked cs) as [[i x]|].
Qed.

Lemma edit_body_insert cs i c text :
  NoDup (id <$> cs) → cs !! i = Some c →
  edit_body (id c) text cs = <[i := {| id := id c; body := text |}]> cs.
Proof.
  revert i. induction cs as [|c0 cs IH]; intros i Hnd Hi; [done|].
  cbn [edit_body]. rewrite fmap_cons in Hnd. apply NoDup_cons in Hnd as [Hnotin Hnd].
  destruct i as [|i]; simpl in *.
  - injection Hi as ->. by rewrite bool_decide_true.
  - rewrite bool_decide_false.
    + by rewrite (IH i).
    + intros Heq. apply Hnotin. rewrite Heq.
      apply list_elem_of_fmap. exists c. split; [done|].
      by apply list_elem_of_lookup_2 with i.
Qed.

Lemma count_marked_app cs1 cs2 :
  count_marked (cs1 ++ cs2) = (count_marked cs1 + count_marked cs2)%nat.
Proof. unfold count_marked. by rewrite filter_app, length_app. Qed.

Lemma count_marked_cons c cs :
  count_marked (c :: cs) = ((if decide (marked c) then 1 else 0) + count_marked cs)%nat.
Proof. unfold count_marked. rewrite filter_cons. by destruct (decide (marked c)). Qed.

Lemma count_marked_none cs :
  list_find marked cs = None → count_marked cs = 0%nat.
Proof.
  intros H. apply list_find_None in H.
  induction H as [|c cs Hc _ IH]; [done|].
  rewrite count_marked_cons, IH. by rewrite decide_False.
Qed.

Lemma count_marked_edit cs i c text :
  cs !! i = Some c → marked c → Py.startswith text marker = true →
  count_marked (<[i := {| id := id c; body := text |}]> cs) = count_marked cs
  ∧ (1 ≤ count_marked cs)%nat.
Proof.
  intros Hi Hc Ht.
  rewrite <- (take_drop_middle cs i c Hi) at 2 3.
  rewrite insert_take_drop by (by apply lookup_lt_Some with c).
  rewrite !count_marked_app, !count_marked_cons.
  rewrite (decide_True (P := marked c)) by done.
  rewrite (decide_True (P := marked _)) by done. lia.
Qed.

End upsert.

(** ** Stepping through the monad *)

Section steps.

Lemma bind_getenv {B} name (k : string → M B) w :
  bind (getenv name) k w =
    match environ w !! name with
    | Some v => k v w
    | None => (Raise (KeyError name), w)
    end.
Proof. unfold bind, getenv. by destruct (environ w !! name). Qed.

Lemma bind_print {B} line (k : unit → M B) w :
  bind (print line) k w = k tt (print line w).2.
Proof. reflexivity. Qed.

Lemma bind_subprocess_run {B} args (k : Z → M B) w :
  bind (subprocess_run args) k w =
    k (git w args (pipfile_lock w)).1 (subprocess_run args w).2.
Proof. reflexivity. Qed.

Lemma bind_parse {B} (k : depmap → M B) w :
  bind parse_pipfile_lock k w =
    match parse_lockfile (pipfile_lock w) with
    | Ok d => k d w
    | Raise e => (Raise e, w)
    end.
Proof. unfold bind, parse_pipfile_lock. by destruct (parse_lockfile _). Qed.

Lemma bind_read_event {B} path (k : gmap string Z → M B) w :
  bind (read_event path) k w =
    match load_json (event_files w path) with
    | Ok d => k d w
    | Raise e => (Raise e, w)
    end.
Proof. unfold bind, read_event. by destruct (load_json _). Qed.

Lemma bind_getitem {V B} (d : gmap string V) key (k : V → M B) w :
  bind (getitem d key) k w =
    match d !! key with
    | Some v => k v w
    | None => (Raise (KeyError key), w)
    end.
Proof. unfold bind, getitem. by destruct (d !! key). Qed.

Lemma bind_request {A B} c (answer : github → result A * github) (k : A → M B) w :
  bind (request c answer) k w =
    match (answer (hub w)).1 with
    | Ok a => k a (request c answer w).2
    | Raise e => (Raise e, (request c answer w).2)
    end.
Proof. unfold bind, request. cbn. by destruct (answer (hub w)).1. Qed.

Lemma bind_get_repo {B} token name (k : unit → M B) w :
  bind (get_repo token name) k w =
    if negb (accepts (hub w) token)
    then (Raise BadCredentialsException, logged (GetRepo name) w)
    else if bool_decide (name = repo_name (hub w))
         then k tt (logged (GetRepo name) w)
         else (Raise UnknownObjectException, logged (GetRepo name) w).
Proof.
  unfold get_repo. rewrite bind_request. cbn.
  destruct (accepts (hub w) token); cbn; [|done].
  case_bool_decide; cbn; done.
Qed.

Lemma bind_get_pull {B} number (k : unit → M B) w :
  bind (get_pull number) k w =
    if bool_decide (number = pull_number (hub w))
    then k tt (logged (GetPull number) w)
    else (Raise UnknownObjectException, logged (GetPull number) w).
Proof.
  unfold get_pull. rewrite bind_request. cbn.
  case_bool_decide; cbn; done.
Qed.

Lemma bind_get_issue_comments {B} (k : list comment → M B) w :
  bind get_issue_comments k w = k (comments (hub w)) (logged ListComments w).
Proof.
  unfold get_issue_comments. rewrite bind_request. cbn. done.
Qed.

Lemma bind_get_issue_comment {B} cid (k : Z → M B) w :
  bind (get_issue_comment cid) k w =
    if bool_decide (cid ∈ id <$> comments (hub w))
    then k cid (logged (GetComment cid) w)
    else (Raise UnknownObjectException, logged (GetComment cid) w).
Proof.
  unfold get_issue_comment. rewrite bind_request. cbn.
  case_bool_decide; cbn; done.
Qed.

End steps.

(** ** Comment upsert, in the world *)

Section upsert_world.

Lemma posted_app l1 l2 : posted (l1 ++ l2) = (posted l1 ++ posted l2)%list.
Proof.
  induction l1 as [|c l1 IH]; [done|].
  destruct c; cbn; by rewrite ?IH.
Qed.


End upsert_world.

Section upsert_claim.

Lemma host_ok_edit g i c text :
  host_ok g → comments g !! i = Some c →
  host_ok (set_comments g (<[i := {| id := id c; body := text |}]> (comments g)) (next_id g)).
Proof.
  intros (Hnd & Hall & Hpos) Hi. unfold host_ok; cbn. split; [|split; [|done]].
  - rewrite list_fmap_insert. cbn. rewrite list_insert_id; [done|].
    by rewrite list_lookup_fmap, Hi.
  - apply Forall_insert; [done|]. cbn.
    by apply (Forall_lookup_1 _ _ _ _ Hall Hi).
Qed.

Lemma host_ok_create g text :
  host_ok g →
  host_ok (set_comments g (comments g ++ [{| id := next_id g; body := text |}])
                        (next_id g + 1)).
Proof.
  intros (Hnd & Hall & Hpos). unfold host_ok; cbn. split; [|split; [|lia]].
  - rewrite fmap_app. cbn. apply NoDup_app. split; [done|]. split.
    + intros x Hx Hx'. apply list_elem_of_singleton in Hx' as ->.
      apply list_elem_of_fmap in Hx as (c & Hc & Hin).
      rewrite Forall_forall in Hall. specialize (Hall c Hin). lia.
    + apply NoDup_singleton.
  - apply Forall_app. split.
    + eapply Forall_impl; [exact Hall|]. cbn. intros c Hc. lia.
    + apply Forall_singleton. cbn. lia.
Qed.

(** C4. With the environment, the event payload and the credentials in
    order, [create_comment] returns normally and: when some comment of the
    pull request starts with the marker, the first such comment gets the
    message as its body, keeps its identifier and its place, and nothing is
    created; when none does, one comment with the message as body is
    appended.  The identifiers of the host stay in order, and a message
    that itself starts with the marker leaves as many marked comments as
    there were, or one if there was none. *)
Theorem create_comment_upserts w message path event_data token name number :
  environ w !! "GITHUB_EVENT_PATH" = Some path →
  event_files w path = Json event_data →
  environ w !! "INPUT_REPO-TOKEN" = Some token →
  environ w !! "GITHUB_REPOSITORY" = Some name →
  accepts (hub w) token = true →
  name = repo_name (hub w) →
  event_data !! "number" = Some number →
  number = pull_number (hub w) →
  host_ok (hub w) →
  ∃ w',
    create_comment message w = (Ok tt, w')
    ∧ host_ok (hub w')
    ∧ (Py.startswith message marker = true →
       count_marked (comments (hub w')) = Nat.max 1 (count_marked (comments (hub w))))
    ∧ match list_find marked (comments (hub w)) with
      | Some (i, c) =>
          comments (hub w') = <[i := {| id := id c; body := message |}]> (comments (hub w))
          ∧ api_log w' = (api_log w ++ [GetRepo name; GetPull number; ListComments;
                                        GetComment (id c); EditComment (id c) message])%list
      | None =>
          comments (hub w') = (comments (hub w) ++ [{| id := next_id (hub w); body := message |}])%list
          ∧ api_log w' = (api_log w ++ [GetRepo name; GetPull number; ListComments;
                                        CreateComment message])%list
      end.
Proof.
  intros Hpath Hev Htok Hname Hacc Hrepo Hnum Hpull Hok.
  unfold create_comment.
  rewrite bind_getenv, Hpath, bind_read_event, Hev. cbn [load_json].
  rewrite bind_getenv, Htok, bind_getenv, Hname, bind_get_repo, Hacc. cbn [negb].
  rewrite bool_decide_true by done.
  rewrite bind_getitem, Hnum, bind_get_pull. cbn [logged hub].
  rewrite bool_decide_true by done.
  rewrite bind_get_issue_comments. cbn [logged hub].
  rewrite find_existing_list_find.
  destruct (list_find marked (comments (hub w))) as [[i c]|] eqn:Hfind; cbn [fmap option_fmap option_map truthy snd].
  - apply list_find_Some in Hfind as (Hi & Hc & _).
    destruct Hok as (Hnd & Hall & Hpos).
    pose proof (Forall_lookup_1 _ _ _ _ Hall Hi) as Hid. cbn in Hid.
    replace (id c =? 0)%Z with false by (symmetry; apply Z.eqb_neq; lia).
    cbn [negb]. rewrite bind_get_issue_comment. cbn [logged hub].
    rewrite bool_decide_true.
    2:{ apply list_elem_of_fmap. exists c. split; [done|].
        by apply list_elem_of_lookup_2 with i. }
    eexists. split; [reflexivity|]. cbn [edit create_issue_comment request fst snd hub comments api_log logged set_comments next_id].
    rewrite (edit_body_insert _ i c message Hnd Hi).
    split; [|split; [|split]].
    + by apply (host_ok_edit (hub w)).
    + intros Hm. destruct (count_marked_edit _ i c message Hi Hc Hm) as [-> Hge]. lia.
    + done.
    + by rewrite <- !app_assoc.
  - eexists. split; [reflexivity|]. cbn [edit create_issue_comment request fst snd hub comments api_log logged set_comments next_id].
    split; [|split; [|split]].
    + by apply (host_ok_create (hub w)).
    + intros Hm. rewrite count_marked_app, (count_marked_none _ Hfind).
      rewrite count_marked_cons. rewrite decide_True by done. done.
    + done.
    + by rewrite <- !app_assoc.
Qed.

End upsert_claim.

(** ** Orchestrator *)

Section orchestrator.



(** *** The exit status of the commands *)

Lemma indifferent_bind {A B} (c : M A) (k : A → M B) :
  indifferent c → (∀ a, indifferent (k a)) → indifferent (bind c k).
Proof.
  intros Hc Hk status w. unfold bind. rewrite Hc.
  destruct (c w) as [[a|e] w']; cbn; [apply Hk | done].
Qed.

(** The status that [subprocess.run] gives back is dropped by [run]. *)
Lemma indifferent_discard {B} args (k : M B) :
  indifferent k → indifferent (bind (subprocess_run args) (fun _ => k)).
Proof.
  intros Hk status w. rewrite !bind_subprocess_run.
  exact (Hk status (subprocess_run args w).2).
Qed.

Lemma indifferent_getenv name : indifferent (getenv name).
Proof. intros status w. unfold getenv; cbn. by destruct (environ w !! name). Qed.

Lemma indifferent_print line : indifferent (print line).
Proof. by intros status w. Qed.

Lemma indifferent_parse : indifferent parse_pipfile_lock.
Proof. by intros status w. Qed.

Lemma indifferent_read_event path : indifferent (read_event path).
Proof. by intros status w. Qed.

Lemma indifferent_getitem {V} (d : gmap string V) key : indifferent (getitem d key).
Proof. intros status w. unfold getitem. by destruct (d !! key). Qed.

Lemma indifferent_request {A} c (answer : github → result A * github) :
  indifferent (request c answer).
Proof. by intros status w. Qed.

Lemma indifferent_ret {A} (a : A) : indifferent (ret a).
Proof. by intros status w. Qed.

Lemma indifferent_create_comment message : indifferent (create_comment message).
Proof.
  unfold create_comment.
  repeat first
    [ apply indifferent_bind; [|intros ?]
    | apply indifferent_getenv | apply indifferent_read_event
    | apply indifferent_getitem | apply indifferent_request ].
  match goal with
  | |- context [find_existing ?cs] => destruct (find_existing cs) as [cid|]
  end; cbn [truthy]; [|apply indifferent_request].
  destruct (negb (cid =? 0)%Z); [|apply indifferent_request].
  apply indifferent_bind; [|intros ?]; apply indifferent_request.
Qed.

Lemma indifferent_run : indifferent run.
Proof.
  unfold run.
  repeat first
    [ apply indifferent_discard
    | apply indifferent_bind; [|intros ?]
    | apply indifferent_getenv | apply indifferent_print | apply indifferent_parse ].
  case_bool_decide; [apply indifferent_print | apply indifferent_create_comment].
Qed.

(** *** The run on given revisions *)

(** The run up to the second parse, when the environment is complete and
    the base lockfile parses. *)
Lemma run_front w base_ref base_sha head_sha base_deps :
  environ w !! "GITHUB_BASE_REF" = Some base_ref →
  environ w !! "INPUT_BASE-SHA" = Some base_sha →
  environ w !! "INPUT_HEAD-SHA" = Some head_sha →
  parse_lockfile (base_tree w base_ref base_sha) = Ok base_deps →
  let w2 := {| environ := environ w; git := git w;
               pipfile_lock := head_tree w base_ref base_sha head_sha;
               event_files := event_files w; hub := hub w;
               stdout := stdout w
                 ++ ["Running `git fetch origin --no-tags --prune --unshallow`";
                     "Checking out base revision " ++ base_sha;
                     "Checking out head revision " ++ head_sha];
               api_log := api_log w |} in
  run w =
    match parse_lockfile (head_tree w base_ref base_sha head_sha) with
    | Ok head_deps =>
        if bool_decide (head_deps = base_deps) then print "No dependency changes." w2
        else create_comment
               (generate_message (get_changed_deps base_deps head_deps)
                                 (get_added_deps base_deps head_deps)
                                 (get_removed_deps base_deps head_deps)) w2
    | Raise e => (Raise e, w2)
    end.
Proof.
  intros Href Hbase Hhead Hparse w2.
  unfold run. rewrite bind_print, bind_getenv. cbn [print snd environ].
  rewrite Href, bind_subprocess_run, bind_getenv. cbn [subprocess_run snd environ].
  rewrite Hbase, bind_print, bind_subprocess_run, bind_parse.
  cbn [print subprocess_run snd pipfile_lock git].
  change (git w ["git"; "checkout"; base_sha] _).2 with (base_tree w base_ref base_sha).
  rewrite Hparse, bind_getenv. cbn [environ].
  rewrite Hhead, bind_print, bind_subprocess_run, bind_parse.
  cbn [print subprocess_run snd pipfile_lock git stdout].
  change (git w ["git"; "checkout"; head_sha] _).2
    with (head_tree w base_ref base_sha head_sha).
  destruct (parse_lockfile (head_tree w base_ref base_sha head_sha)) as [head_deps|e];
    [case_bool_decide|]; subst w2;
    cbn [environ git pipfile_lock event_files hub stdout api_log];
    rewrite <- ?app_assoc; reflexivity.
Qed.

Lemma run_base_unparsed w base_ref base_sha e :
  environ w !! "GITHUB_BASE_REF" = Some base_ref →
  environ w !! "INPUT_BASE-SHA" = Some base_sha →
  parse_lockfile (base_tree w base_ref base_sha) = Raise e →
  (run w).1 = Raise e ∧ api_log (run w).2 = api_log w ∧ hub (run w).2 = hub w.
Proof.
  intros Href Hbase Hparse.
  unfold run. rewrite bind_print, bind_getenv. cbn [print snd environ].
  rewrite Href, bind_subprocess_run, bind_getenv. cbn [subprocess_run snd environ].
  rewrite Hbase, bind_print, bind_subprocess_run, bind_parse.
  cbn [print subprocess_run snd pipfile_lock git].
  change (git w ["git"; "checkout"; base_sha] _).2 with (base_tree w base_ref base_sha).
  by rewrite Hparse.
Qed.

Lemma unusable_raises {A} (f : file A) :
  unusable f →
  ∃ e, load_json f = Raise e
       ∧ (e = FileNotFoundError ∨ e = PermissionError ∨ e = JSONDecodeError).
Proof. destruct f; cbn; [eauto 6..|done]. Qed.

Lemma parse_unusable (f : file lockdata) e :
  load_json f = Raise e → parse_lockfile f = Raise e.
Proof. unfold parse_lockfile. by intros ->. Qed.

End orchestrator.

(** * Main results *)

Section results.
Implicit Types base_deps head_deps : depmap.

(** C3. [get_changed_deps] holds exactly the names that both mappings have
    with different version strings, each with the base and the head
    version; with an empty base it is empty whatever the head is. *)
Theorem changed_exactly_the_differing_keys base_deps head_deps :
  (∀ k c, get_changed_deps base_deps head_deps !! k = Some c ↔
          ∃ b h, base_deps !! k = Some b ∧ head_deps !! k = Some h
                 ∧ b ≠ h ∧ c = {| c_base := b; c_head := h |})
  ∧ get_changed_deps ∅ head_deps = ∅.
Proof.
  split.
  - intros k c. rewrite lookup_changed.
    destruct (base_deps !! k) as [b|], (head_deps !! k) as [h|];
      try (split; [done | by intros (? & ? & ? & ? & _)]).
    case_bool_decide as Hbh.
    + subst. split; [done|]. intros (b & h' & [= <-] & [= <-] & Hne & _). done.
    + split.
      * intros [= <-]. eauto 6.
      * intros (b' & h' & [= <-] & [= <-] & _ & ->). done.
  - apply map_eq. intros k. rewrite lookup_changed. by rewrite !lookup_empty.
Qed.

(** C6. [get_added_deps base head] and [get_removed_deps head base] are the
    same mapping: the names that only the second argument has, with the
    versions it gives them. *)
Theorem added_is_removed_swapped base_deps head_deps :
  get_added_deps base_deps head_deps = get_removed_deps head_deps base_deps
  ∧ ∀ k v, get_added_deps base_deps head_deps !! k = Some v ↔
           base_deps !! k = None ∧ head_deps !! k = Some v.
Proof.
  split; [reflexivity|]. intros k v. rewrite lookup_added.
  destruct (base_deps !! k); intuition congruence.
Qed.

(** C7. The descriptor of an entry: with a [version] field, its value
    without one leading [==], whether or not there is a [ref]; with a [ref]
    and no [version], the first seven characters of the [ref]. *)
Theorem dep_version_spec (m : meta) :
  (∀ v, m !! "version" = Some v → dep_version m = Ok (Py.removeprefix v "=="))
  ∧ (∀ r, m !! "version" = None → m !! "ref" = Some r →
          dep_version m = Ok (Py.take 7 r))
  ∧ (∀ s, Py.removeprefix ("==" ++ s) "==" = s)
  ∧ (∀ s, Py.startswith s "==" = false → Py.removeprefix s "==" = s)
  ∧ (∀ r, Py.take 7 r ++ Py.drop 7 r = r
          ∧ String.length (Py.take 7 r) = Nat.min 7 (String.length r))
  ∧ Py.removeprefix "==1.2.3" "==" = "1.2.3"
  ∧ Py.removeprefix "1.2.3" "==" = "1.2.3".
Proof.
  split; [apply dep_version_version|]. split; [apply dep_version_ref|].
  split; [apply removeprefix_app|]. split; [apply removeprefix_other|].
  split; [|done]. intros r. split; [apply str_take_drop | apply str_take_length].
Qed.

(** C8. With both groups in the document and every entry usable, the parser
    returns one mapping: a name of [develop] has the descriptor of its
    [develop] entry, also when [default] has the name too; a name that only
    [default] has gets the descriptor of that entry; there are no other
    names. *)
Theorem develop_overwrites_default (data : lockdata) (default_g develop_g : group) :
  data !! "default" = Some default_g →
  data !! "develop" = Some develop_g →
  map_Forall (fun _ m => usable m) default_g →
  map_Forall (fun _ m => usable m) develop_g →
  ∃ deps : depmap,
    parse_lockfile (Json data) = Ok deps
    ∧ (∀ name m, develop_g !! name = Some m →
         ∃ v, dep_version m = Ok v ∧ deps !! name = Some v)
    ∧ (∀ name m, develop_g !! name = None → default_g !! name = Some m →
         ∃ v, dep_version m = Ok v ∧ deps !! name = Some v)
    ∧ (∀ name, develop_g !! name = None → default_g !! name = None →
         deps !! name = None).
Proof.
  intros Hdef Hdev Hall1 Hall2.
  rewrite (parse_lockfile_groups data default_g develop_g Hdef Hdev).
  pose proof (parse_entries_inv ∅ default_g) as I1.
  destruct (map_fold parse_entry (Ok ∅) default_g) as [d1|e]; cbn in I1;
    [|by destruct I1 as [_ Hn]].
  destruct I1 as [_ L1].
  pose proof (parse_entries_inv d1 develop_g) as I2.
  destruct (map_fold parse_entry (Ok d1) develop_g) as [d2|e]; cbn in I2;
    [|by destruct I2 as [_ Hn]].
  destruct I2 as [_ L2]. exists d2. split; [done|].
  split; [|split].
  - intros name m Hm. specialize (L2 name). rewrite Hm in L2.
    destruct L2 as [Hv [v Hs]]. rewrite Hs in Hv. cbn in Hv. eauto.
  - intros name m Hnone Hm. specialize (L2 name). rewrite Hnone in L2.
    specialize (L1 name). rewrite Hm in L1.
    destruct L1 as [Hv [v Hs]]. rewrite Hs in Hv. cbn in Hv.
    exists v. split; [done|]. by rewrite L2.
  - intros name Hnone1 Hnone2. specialize (L2 name). rewrite Hnone1 in L2.
    specialize (L1 name). rewrite Hnone2 in L1. by rewrite L2, L1.
Qed.

(** C5, as the code has it. The message is the marker line and the header,
    then the Changed, Added and Removed sections in that order, each
    present exactly when its mapping is not empty.  The lines of a section
    ([name base => head], or [name==version]) are taken each once, in
    ascending order, and joined by newlines; the joined text then goes
    through [strip], which takes the white space off its two ends, before
    it is put between the fences. *)
Theorem generate_message_layout (changed : gmap string change) (added removed : depmap) :
  ∃ lc la lr : list string,
    sorted_unique_lines changed_line changed lc
    ∧ sorted_unique_lines pinned_line added la
    ∧ sorted_unique_lines pinned_line removed lr
    ∧ generate_message changed added removed =
        marker ++ nl ++ nl ++ "Dependency changes from `Pipfile.lock`:" ++ nl ++ nl
        ++ (if bool_decide (changed = ∅) then ""
            else fenced "Changed" (Py.strip (Py.join nl lc)))
        ++ (if bool_decide (added = ∅) then ""
            else fenced "Added" (Py.strip (Py.join nl la)))
        ++ (if bool_decide (removed = ∅) then ""
            else fenced "Removed" (Py.strip (Py.join nl lr)))
    ∧ Py.startswith (generate_message changed added removed) (marker ++ nl) = true.
Proof.
  exists (sorted_lines changed_line changed), (sorted_lines pinned_line added),
    (sorted_lines pinned_line removed).
  split; [apply sorted_lines_spec|]. split; [apply sorted_lines_spec|].
  split; [apply sorted_lines_spec|].
  rewrite generate_message_sections. split.
  - unfold header. rewrite !str_app_assoc. reflexivity.
  - apply startswith_app_l. reflexivity.
Qed.

(** C1, as the code has it. The exit status of [git fetch] and of the two
    [git checkout] is dropped: with any other exit statuses, and the same
    effect of the commands on the working tree, the run gives the same
    result and leaves the same world. *)
Theorem run_ignores_exit_status (status : list string → Z) (w : world) :
  run (with_exit_status status w) = ((run w).1, with_exit_status status (run w).2).
Proof. apply indifferent_run. Qed.

(** C2. When the lockfiles of the two revisions parse to the same mapping,
    the run returns normally, the only thing it adds to the world is its
    four lines of output, and no request is sent to the host. *)
Theorem run_unchanged_is_silent w base_ref base_sha head_sha base_deps head_deps :
  environ w !! "GITHUB_BASE_REF" = Some base_ref →
  environ w !! "INPUT_BASE-SHA" = Some base_sha →
  environ w !! "INPUT_HEAD-SHA" = Some head_sha →
  parse_lockfile (base_tree w base_ref base_sha) = Ok base_deps →
  parse_lockfile (head_tree w base_ref base_sha head_sha) = Ok head_deps →
  base_deps = head_deps →
  run w = (Ok tt,
           {| environ := environ w; git := git w;
              pipfile_lock := head_tree w base_ref base_sha head_sha;
              event_files := event_files w; hub := hub w;
              stdout := stdout w
                ++ ["Running `git fetch origin --no-tags --prune --unshallow`";
                    "Checking out base revision " ++ base_sha;
                    "Checking out head revision " ++ head_sha;
                    "No dependency changes."];
              api_log := api_log w |})
  ∧ exit_status (run w).1 = 0%Z
  ∧ api_log (run w).2 = api_log w
  ∧ hub (run w).2 = hub w.
Proof.
  intros Href Hbase Hhead Hb Hh <-.
  rewrite (run_front w base_ref base_sha head_sha base_deps Href Hbase Hhead Hb).
  rewrite Hh. rewrite bool_decide_true by done.
  unfold print.
  cbn [fst snd exit_status api_log hub stdout environ git pipfile_lock event_files].
  rewrite <- app_assoc. done.
Qed.

(** C9. A lockfile that is missing, unreadable or not JSON makes the parser
    raise; when that happens at the base revision, or at the head revision
    after the base one has parsed, the run ends with that exception, a
    non-zero exit status, and no request sent to the host. *)
Theorem unusable_lockfile_aborts w base_ref base_sha :
  environ w !! "GITHUB_BASE_REF" = Some base_ref →
  environ w !! "INPUT_BASE-SHA" = Some base_sha →
  unusable (base_tree w base_ref base_sha)
  ∨ (∃ base_deps head_sha,
       parse_lockfile (base_tree w base_ref base_sha) = Ok base_deps
       ∧ environ w !! "INPUT_HEAD-SHA" = Some head_sha
       ∧ unusable (head_tree w base_ref base_sha head_sha)) →
  (∃ e, (e = FileNotFoundError ∨ e = PermissionError ∨ e = JSONDecodeError)
        ∧ (run w).1 = Raise e)
  ∧ exit_status (run w).1 ≠ 0%Z
  ∧ api_log (run w).2 = api_log w
  ∧ hub (run w).2 = hub w
  ∧ parse_lockfile NoFile = Raise FileNotFoundError
  ∧ parse_lockfile Unreadable = Raise PermissionError
  ∧ parse_lockfile NotJson = Raise JSONDecodeError.
Proof.
  intros Href Hbase Hbad.
  assert (∃ e, (e = FileNotFoundError ∨ e = PermissionError ∨ e = JSONDecodeError)
               ∧ (run w).1 = Raise e
               ∧ api_log (run w).2 = api_log w ∧ hub (run w).2 = hub w)
    as (e & He & Hrun & Hlog & Hhub).
  { destruct Hbad as [Hbad|(base_deps & head_sha & Hb & Hhead & Hbad)].
    - apply unusable_raises in Hbad as (e & Hload & He).
      apply parse_unusable in Hload.
      destruct (run_base_unparsed w base_ref base_sha e Href Hbase Hload)
        as (? & ? & ?). eauto 6.
    - apply unusable_raises in Hbad as (e & Hload & He).
      apply parse_unusable in Hload. exists e. split; [done|].
      rewrite (run_front w base_ref base_sha head_sha base_deps Href Hbase Hhead Hb).
      by rewrite Hload. }
  split; [eauto|]. rewrite Hrun. done.
Qed.


End results.

(** * Concrete runs *)

Section concrete.
Import Example.

Ltac by_computation := apply (bool_decide_unpack _); vm_compute; exact I.

(** Scenario A of the specification. *)
Example scenario_A :
  get_added_deps ∅ {[ "foo" := "1.0.0" ]} = {[ "foo" := "1.0.0" ]}
  ∧ get_removed_deps ∅ {[ "foo" := "1.0.0" ]} = ∅
  ∧ get_changed_deps ∅ {[ "foo" := "1.0.0" ]} = ∅
  ∧ generate_message ∅ {[ "foo" := "1.0.0" ]} ∅ = header ++ fenced "Added" "foo==1.0.0".
Proof. repeat split; vm_compute; reflexivity. Qed.

(** Scenario B. *)
Example scenario_B :
  get_changed_deps {[ "foo" := "1.0.0" ]} {[ "foo" := "2.0.0" ]}
    = {[ "foo" := {| c_base := "1.0.0"; c_head := "2.0.0" |} ]}
  ∧ generate_message
      (get_changed_deps {[ "foo" := "1.0.0" ]} {[ "foo" := "2.0.0" ]})
      (get_added_deps {[ "foo" := "1.0.0" ]} {[ "foo" := "2.0.0" ]})
      (get_removed_deps {[ "foo" := "1.0.0" ]} {[ "foo" := "2.0.0" ]})
    = foo_changed.
Proof. repeat split; vm_compute; reflexivity. Qed.

(** Scenario C. *)
Example scenario_C :
  get_removed_deps (<[ "foo" := "1.0.0" ]> {[ "bar" := "3.0.0" ]}) {[ "bar" := "3.0.0" ]}
    = {[ "foo" := "1.0.0" ]}
  ∧ generate_message
      (get_changed_deps (<[ "foo" := "1.0.0" ]> {[ "bar" := "3.0.0" ]}) {[ "bar" := "3.0.0" ]})
      (get_added_deps (<[ "foo" := "1.0.0" ]> {[ "bar" := "3.0.0" ]}) {[ "bar" := "3.0.0" ]})
      (get_removed_deps (<[ "foo" := "1.0.0" ]> {[ "bar" := "3.0.0" ]}) {[ "bar" := "3.0.0" ]})
    = header ++ fenced "Removed" "foo==1.0.0".
Proof. repeat split; vm_compute; reflexivity. Qed.

(** The lines of a section come out in code-point order, and [strip] eats
    the white space at both ends of the joined text. *)
Example sorted_section :
  sorted_lines pinned_line (<[ "b" := "2" ]> (<[ "a" := "1" ]> {[ "B" := "3" ]}))
    = ["B==3"; "a==1"; "b==2"]
  ∧ Py.strip (Py.join nl [" a==1"; "b==2 "]) = "a==1" ++ nl ++ "b==2".
Proof. repeat split; vm_compute; reflexivity. Qed.

(** C1 fails on the code: the fetch exits with 128 and the checkout of the
    base revision with 1, and still the run returns normally, with exit
    status 0, after creating a comment. *)
Lemma vcs_failure_is_not_fatal :
  (git broken_vcs (fetch_args "main") (pipfile_lock broken_vcs)).1 = 128%Z
  ∧ (git broken_vcs (checkout_args "aaa") (fetched_tree broken_vcs "main")).1 = 1%Z
  ∧ (run broken_vcs).1 = Ok tt
  ∧ exit_status (run broken_vcs).1 = 0%Z
  ∧ api_log (run broken_vcs).2
    = [GetRepo "o/r"; GetPull 7; ListComments; CreateComment foo_changed]
  ∧ comments (hub (run broken_vcs).2) = [ {| id := 100; body := foo_changed |} ]
  ∧ ¬ aborts_without_request broken_vcs.
Proof.
  repeat split; try (vm_compute; reflexivity).
  intros (e & w' & Hrun & _).
  assert ((run broken_vcs).1 = Ok tt) as Hok by (vm_compute; reflexivity).
  rewrite Hrun in Hok. discriminate Hok.
Qed.

(** C5 fails on the code as the specification words it: [strip] takes the
    leading space of the first line away, after the sort that had put that
    line first, so that the section reads [b==1] before [a==1]; and it
    takes the trailing space of a last line away, so that two lines that
    the set had kept apart read the same. *)
Lemma section_is_not_the_joined_lines :
  sorted_lines pinned_line spaced_name = [" b==1"; "a==1"]
  ∧ generate_message ∅ spaced_name ∅
    = header ++ fenced "Added" ("b==1" ++ nl ++ "a==1")
  ∧ ¬ String.le "b==1" "a==1"
  ∧ ¬ rendered_as_joined_lines ∅ spaced_name ∅
  ∧ sorted_lines pinned_line spaced_version = ["a===1"; "a===1 "]
  ∧ generate_message ∅ spaced_version ∅
    = header ++ fenced "Added" ("a===1" ++ nl ++ "a===1")
  ∧ ¬ rendered_as_joined_lines ∅ spaced_version ∅.
Proof.
  assert (∀ added expected,
            sorted_lines pinned_line added = expected →
            generate_message ∅ added ∅
              ≠ header ++ "" ++ fenced "Added" (Py.join nl expected) ++ "" →
            added ≠ ∅ →
            ¬ rendered_as_joined_lines ∅ added ∅) as Hnot.
  { intros added expected Hsorted Hne Hadded (lc & la & lr & _ & Hla & _ & Heq).
    assert (la = expected) as ->.
    { rewrite <- Hsorted.
      exact (sorted_unique_lines_unique pinned_line added _ _ Hla
               (sorted_lines_spec pinned_line added)). }
    apply Hne. rewrite Heq.
    rewrite !(bool_decide_true (∅ = ∅)) by done.
    by rewrite (bool_decide_false (added = ∅)). }
  split; [vm_compute; reflexivity|]. split; [vm_compute; reflexivity|].
  split; [by_computation|]. split.
  { apply (Hnot spaced_name [" b==1"; "a==1"]);
      [vm_compute; reflexivity | by_computation | by_computation]. }
  split; [vm_compute; reflexivity|]. split; [vm_compute; reflexivity|].
  apply (Hnot spaced_version ["a===1"; "a===1 "]);
    [vm_compute; reflexivity | by_computation | by_computation].
Qed.

Lemma run_unchanged_is_silent_witness :
  (run (healthy lock_v1 lock_v1 thread)).1 = Ok tt
  ∧ api_log (run (healthy lock_v1 lock_v1 thread)).2 = []
  ∧ comments (hub (run (healthy lock_v1 lock_v1 thread)).2) = thread.
Proof.
  destruct (run_unchanged_is_silent (healthy lock_v1 lock_v1 thread)
              "main" "aaa" "bbb" {[ "foo" := "1.0.0" ]} {[ "foo" := "1.0.0" ]})
    as (Hrun & _ & Hlog & Hhub); [vm_compute; reflexivity..|].
  split; [by rewrite Hrun|]. rewrite Hlog, Hhub. split; reflexivity.
Defined.

Lemma create_comment_upserts_witness :
  ∃ w', create_comment foo_changed (healthy lock_v1 lock_v2 thread) = (Ok tt, w')
        ∧ comments (hub w')
          = [ {| id := 5; body := "LGTM" |};
              {| id := 6; body := foo_changed |};
              {| id := 9; body := marker ++ " stale" |} ]
        ∧ count_marked (comments (hub w')) = 2%nat.
Proof.
  destruct (create_comment_upserts (healthy lock_v1 lock_v2 thread) foo_changed
              "/event.json" {[ "number" := 7%Z ]} "secret" "o/r" 7)
    as (w' & Hrun & _ & Hcount & Hedit);
    [vm_compute; reflexivity.. | by_computation |].
  exists w'. split; [exact Hrun|].
  change (list_find marked (comments (hub (healthy lock_v1 lock_v2 thread))))
    with (Some (1%nat, {| id := 6; body := marker ++ nl ++ "old" |})) in Hedit.
  destruct Hedit as [Hcs _]. split; [rewrite Hcs; reflexivity|].
  rewrite Hcount by (vm_compute; reflexivity). vm_compute. reflexivity.
Defined.

Lemma develop_overwrites_default_witness :
  ∃ deps : depmap,
    parse_lockfile (Json both_groups) = Ok deps
    ∧ deps !! "foo" = Some "2.0.0"
    ∧ deps !! "bar" = Some "0123456".
Proof.
  destruct (develop_overwrites_default both_groups default_group develop_group)
    as (deps & Hparse & Hdev & Hdef & _);
    [vm_compute; reflexivity.. | by_computation | by_computation |].
  exists deps. split; [exact Hparse|]. split.
  - destruct (Hdev "foo" {[ "version" := "==2.0.0" ]}) as (v & Hv & Hl);
      [vm_compute; reflexivity|].
    vm_compute in Hv. injection Hv as <-. exact Hl.
  - destruct (Hdef "bar" {[ "ref" := "0123456789abcdef" ]}) as (v & Hv & Hl);
      [vm_compute; reflexivity..|].
    vm_compute in Hv. injection Hv as <-. exact Hl.
Defined.

Lemma unusable_lockfile_aborts_witness :
  (run (healthy lock_v1 NotJson thread)).1 = Raise JSONDecodeError
  ∧ api_log (run (healthy lock_v1 NotJson thread)).2 = []
  ∧ comments (hub (run (healthy lock_v1 NotJson thread)).2) = thread.
Proof.
  destruct (unusable_lockfile_aborts (healthy lock_v1 NotJson thread) "main" "aaa")
    as (_ & _ & Hlog & Hhub & _); [vm_compute; reflexivity.. | |].
  - right. exists {[ "foo" := "1.0.0" ]}, "bbb".
    split; [vm_compute; reflexivity|]. split; [vm_compute; reflexivity|].
    vm_compute. exact I.
  - rewrite Hlog, Hhub. split; [vm_compute; reflexivity|]. split; reflexivity.
Defined.


End concrete.

(** * Further properties *)

(** ** Diff engine *)

Section diff_more.
Implicit Types base_deps head_deps : depmap.

(** X1. A name is in at most one of the three parts of the diff, and in
    none of them exactly when both mappings agree on it. *)
Theorem diff_parts_partition base_deps head_deps k :
  let changed := get_changed_deps base_deps head_deps in
  let added := get_added_deps base_deps head_deps in
  let removed := get_removed_deps base_deps head_deps in
  ¬ (is_Some (changed !! k) ∧ is_Some (added !! k))
  ∧ ¬ (is_Some (changed !! k) ∧ is_Some (removed !! k))
  ∧ ¬ (is_Some (added !! k) ∧ is_Some (removed !! k))
  ∧ (changed !! k = None ∧ added !! k = None ∧ removed !! k = None
     ↔ base_deps !! k = head_deps !! k).
Proof.
  cbn zeta. rewrite lookup_changed, lookup_added, lookup_removed.
  destruct (base_deps !! k) as [b|], (head_deps !! k) as [h|];
    try case_bool_decide; subst;
    repeat split; try (intros [[? ?] [? ?]]; congruence);
    try (intros (? & ? & ?); congruence); try congruence.
Qed.

(** X2. The diff is complete: replaying its three parts on the base mapping
    gives the head mapping back. *)
Theorem apply_diff_gives_head base_deps head_deps :
  apply_diff base_deps (get_changed_deps base_deps head_deps)
             (get_added_deps base_deps head_deps)
             (get_removed_deps base_deps head_deps) = head_deps.
Proof.
  apply map_eq. intros k. unfold apply_diff.
  rewrite !lookup_union, lookup_fmap, lookup_difference.
  rewrite lookup_changed, lookup_added, lookup_removed.
  destruct (base_deps !! k) as [b|], (head_deps !! k) as [h|];
    try case_bool_decide; subst; reflexivity.
Qed.

(** X3. The three parts are all empty exactly when the two mappings are
    equal. *)
Theorem diff_empty_iff_equal base_deps head_deps :
  get_changed_deps base_deps head_deps = ∅
  ∧ get_added_deps base_deps head_deps = ∅
  ∧ get_removed_deps base_deps head_deps = ∅
  ↔ base_deps = head_deps.
Proof.
  split.
  - intros (Hc & Ha & Hr).
    destruct (decide (base_deps = head_deps)) as [|Hne]; [done|].
    destruct (diff_nonempty _ _ Hne) as [?|[?|?]]; done.
  - intros <-. repeat split; apply map_eq; intros k;
      rewrite ?lookup_changed, ?lookup_added, ?lookup_removed, lookup_empty;
      destruct (base_deps !! k); try rewrite bool_decide_true; done.
Qed.

(** X4. Swapping base and head swaps the two versions of every changed
    name, and changes nothing else in [changed]. *)
Theorem changed_swapped base_deps head_deps :
  get_changed_deps head_deps base_deps
  = swap_change <$> get_changed_deps base_deps head_deps.
Proof.
  apply map_eq. intros k. rewrite lookup_fmap, !lookup_changed.
  destruct (base_deps !! k) as [b|], (head_deps !! k) as [h|]; try done.
  destruct (decide (b = h)) as [->|Hne].
  - by rewrite !bool_decide_true.
  - rewrite !bool_decide_false by congruence. done.
Qed.

(** X5. Against an empty mapping: with an empty base everything is added
    and nothing is removed or changed; with an empty head everything is
    removed and nothing is added or changed. *)
Theorem diff_against_empty (d : depmap) :
  get_added_deps ∅ d = d
  ∧ get_removed_deps ∅ d = ∅
  ∧ get_changed_deps ∅ d = ∅
  ∧ get_removed_deps d ∅ = d
  ∧ get_added_deps d ∅ = ∅
  ∧ get_changed_deps d ∅ = ∅.
Proof.
  repeat split; apply map_eq; intros k;
    rewrite ?lookup_changed, ?lookup_added, ?lookup_removed, ?lookup_empty;
    destruct (d !! k); done.
Qed.

End diff_more.

(** ** Lockfile parser *)

Section parser_more.

(** X6. A document without a [default] group makes the parser raise
    [KeyError('default')]; one whose [default] group is fine but that has
    no [develop] group makes it raise [KeyError('develop')]. *)
Theorem parse_missing_group (data : lockdata) (d_type : string) :
  (data !! "default" = None ∧ d_type = "default")
  ∨ (∃ g, data !! "default" = Some g ∧ map_Forall (fun _ m => usable m) g
          ∧ data !! "develop" = None ∧ d_type = "develop") →
  parse_lockfile (Json data) = Raise (KeyError d_type).
Proof.
  intros [[Hd ->]|(g & Hd & Hall & Hdev & ->)];
    unfold parse_lockfile; cbn [load_json fold_left]; unfold parse_group; rewrite Hd.
  - done.
  - pose proof (parse_entries_inv ∅ g) as I.
    destruct (map_fold parse_entry (Ok ∅) g) as [d|e]; cbn in I.
    + by rewrite Hdev.
    + by destruct I as [_ Hn].
Qed.

(** X7. With both groups in the document, the parser returns a mapping
    exactly when every entry has a [version] or a [ref] field; otherwise it
    raises [KeyError('version')], whichever entry is at fault. *)
Theorem parse_ok_iff_usable (data : lockdata) (default_g develop_g : group) :
  data !! "default" = Some default_g →
  data !! "develop" = Some develop_g →
  ((∃ deps, parse_lockfile (Json data) = Ok deps)
   ↔ map_Forall (fun _ m => usable m) default_g
     ∧ map_Forall (fun _ m => usable m) develop_g)
  ∧ (parse_lockfile (Json data) = Raise (KeyError "version")
     ↔ ¬ (map_Forall (fun _ m => usable m) default_g
          ∧ map_Forall (fun _ m => usable m) develop_g)).
Proof.
  intros Hdef Hdev.
  rewrite (parse_lockfile_groups data default_g develop_g Hdef Hdev).
  pose proof (parse_entries_inv ∅ default_g) as I1.
  destruct (map_fold parse_entry (Ok ∅) default_g) as [d1|e1]; cbn in I1.
  - destruct I1 as [Hall1 _].
    pose proof (parse_entries_inv d1 develop_g) as I2.
    destruct (map_fold parse_entry (Ok d1) develop_g) as [d2|e2]; cbn in I2.
    + destruct I2 as [Hall2 _].
      split; [split; [done | eauto] | split; [done | intros Hn; by destruct Hn]].
    + destruct I2 as [-> Hn2].
      split; [split; [by intros [? ?] | by intros [_ ?]]
             | split; [by intros _ [_ ?] | done]].
  - destruct I1 as [-> Hn1].
    split; [split; [by intros [? ?] | by intros [? _]]
           | split; [by intros _ [? _] | done]].
Qed.

(** X8. Only the [default] and [develop] groups are read: another top-level
    key of the document, present or not, does not change the result. *)
Theorem parse_ignores_other_keys (data : lockdata) (key : string) (g : group) :
  key ≠ "default" → key ≠ "develop" →
  parse_lockfile (Json (<[key := g]> data)) = parse_lockfile (Json data)
  ∧ parse_lockfile (Json (delete key data)) = parse_lockfile (Json data).
Proof.
  intros H1 H2. unfold parse_lockfile; cbn [load_json fold_left]. unfold parse_group.
  by rewrite !lookup_insert_ne, !lookup_delete_ne by done.
Qed.

End parser_more.

(** ** Message renderer *)

Section renderer_more.

(** X10. The message is the bare header exactly when the three mappings
    are empty. *)
Theorem message_is_header_iff_empty (changed : gmap string change) (added removed : depmap) :
  generate_message changed added removed = header
  ↔ changed = ∅ ∧ added = ∅ ∧ removed = ∅.
Proof.
  split.
  - intros Heq.
    destruct (decide (changed = ∅)) as [Hc|Hc];
      destruct (decide (added = ∅)) as [Ha|Ha];
      destruct (decide (removed = ∅)) as [Hr|Hr]; try done;
      (assert (String.length header
               < String.length (generate_message changed added removed))%nat as Hlt
         by (apply generate_message_longer; tauto));
      rewrite Heq in Hlt; lia.
  - intros (-> & -> & ->). rewrite generate_message_sections.
    rewrite !bool_decide_true by done. by rewrite !str_app_nil_r.
Qed.

End renderer_more.

(** ** Comment upsert *)

Section upsert_more.

Lemma with_log_nil w : with_log [] w = w.
Proof. destruct w. unfold with_log; cbn. by rewrite app_nil_r. Qed.

Lemma logged_with_log c calls w : logged c (with_log calls w) = with_log (calls ++ [c]) w.
Proof. unfold logged, with_log; cbn. by rewrite app_assoc. Qed.

Lemma logged_one c w : logged c w = with_log [c] w.
Proof. reflexivity. Qed.

(** The three ways [create_comment] can end. *)
Lemma create_comment_cases message w :
  (∃ e calls, create_comment message w = (Raise e, with_log calls w) ∧ posted calls = [])
  ∨ (∃ cid,
       find_existing (comments (hub w)) = Some cid ∧ cid ≠ 0%Z
       ∧ create_comment message w
         = (Ok tt,
            with_hub (set_comments (hub w) (edit_body cid message (comments (hub w)))
                                   (next_id (hub w)))
              (with_log [GetRepo (repo_name (hub w)); GetPull (pull_number (hub w));
                         ListComments; GetComment cid; EditComment cid message] w)))
  ∨ (truthy (find_existing (comments (hub w))) = false
     ∧ create_comment message w
       = (Ok tt,
          with_hub (set_comments (hub w)
                      (comments (hub w) ++ [{| id := next_id (hub w); body := message |}])
                      (next_id (hub w) + 1))
            (with_log [GetRepo (repo_name (hub w)); GetPull (pull_number (hub w));
                       ListComments; CreateComment message] w))).
Proof.
  assert (Hfail : ∀ e calls w', w' = with_log calls w → posted calls = [] →
    ∃ e' calls', (Raise e, w') = (@Raise unit e', with_log calls' w) ∧ posted calls' = []).
  { intros e calls w' -> Hp. by exists e, calls. }
  unfold create_comment. rewrite bind_getenv.
  destruct (environ w !! "GITHUB_EVENT_PATH") as [path|];
    [|left; apply (Hfail _ []); [by rewrite with_log_nil | done]].
  rewrite bind_read_event.
  destruct (load_json _) as [event_data|];
    [|left; apply (Hfail _ []); [by rewrite with_log_nil | done]].
  rewrite bind_getenv.
  destruct (environ w !! "INPUT_REPO-TOKEN") as [token|];
    [|left; apply (Hfail _ []); [by rewrite with_log_nil | done]].
  rewrite bind_getenv.
  destruct (environ w !! "GITHUB_REPOSITORY") as [name|];
    [|left; apply (Hfail _ []); [by rewrite with_log_nil | done]].
  rewrite bind_get_repo, logged_one.
  destruct (negb (accepts (hub w) token));
    [left; by apply (Hfail _ [GetRepo name])|].
  case_bool_decide as Hname; [|left; by apply (Hfail _ [GetRepo name])].
  subst name. rewrite bind_getitem.
  destruct (event_data !! "number") as [number|];
    [|left; by apply (Hfail _ [GetRepo (repo_name (hub w))])].
  rewrite bind_get_pull, logged_with_log. cbn [with_log hub app].
  case_bool_decide as Hnum;
    [|left; by apply (Hfail _ [GetRepo (repo_name (hub w)); GetPull number])].
  subst number.
  rewrite bind_get_issue_comments. cbv zeta. cbn [logged with_log hub].
  destruct (find_existing (comments (hub w))) as [cid|] eqn:Hfind; cbn [truthy].
  - destruct (Z.eqb_spec cid 0) as [->|Hcid]; cbn [negb].
    + right; right. split; [done|]. unfold create_issue_comment, request, with_hub, with_log.
      cbn. by rewrite <- !app_assoc.
    + rewrite bind_get_issue_comment. cbn [logged hub].
      case_bool_decide.
      * right; left. exists cid. split; [done|]. split; [done|].
        unfold edit, request, with_hub, with_log. cbn. by rewrite <- !app_assoc.
      * left. apply (Hfail _ [GetRepo (repo_name (hub w)); GetPull (pull_number (hub w));
                              ListComments; GetComment cid]); [|done].
        unfold logged, with_log. cbn. by rewrite <- !app_assoc.
  - right; right. split; [done|]. unfold create_issue_comment, request, with_hub, with_log.
    cbn. by rewrite <- !app_assoc.
Qed.

(** With everything in order the upsert goes through. *)
Lemma create_comment_ok message w :
  ready w → host_ok (hub w) →
  create_comment message w = (Ok tt, upserted message w).
Proof.
  intros (path & event_data & token & Hpath & Hev & Htok & Hname & Hacc & Hnum) Hok.
  unfold create_comment.
  rewrite bind_getenv, Hpath, bind_read_event, Hev. cbn [load_json].
  rewrite bind_getenv, Htok, bind_getenv, Hname, bind_get_repo, Hacc. cbn [negb].
  rewrite bool_decide_true by done.
  rewrite bind_getitem, Hnum, bind_get_pull. cbn [logged hub].
  rewrite bool_decide_true by done.
  rewrite bind_get_issue_comments. cbv zeta. cbn [logged hub].
  rewrite find_existing_list_find. unfold upserted. cbv zeta.
  destruct (list_find marked (comments (hub w))) as [[i c]|] eqn:Hfind;
    cbn [fmap option_fmap option_map truthy snd].
  - apply list_find_Some in Hfind as (Hi & Hc & _).
    destruct Hok as (Hnd & Hall & Hpos).
    pose proof (Forall_lookup_1 _ _ _ _ Hall Hi) as Hid. cbn in Hid.
    replace (id c =? 0)%Z with false by (symmetry; apply Z.eqb_neq; lia).
    cbn [negb]. rewrite bind_get_issue_comment. cbn [logged hub].
    rewrite bool_decide_true.
    2:{ apply list_elem_of_fmap. exists c. split; [done|].
        by apply list_elem_of_lookup_2 with i. }
    unfold edit, request, with_hub, with_log. cbn.
    rewrite (edit_body_insert _ i c message Hnd Hi). by rewrite <- !app_assoc.
  - unfold create_issue_comment, request, with_hub, with_log. cbn.
    by rewrite <- !app_assoc.
Qed.

Lemma ready_upserted message w : ready w → ready (upserted message w).
Proof.
  intros (path & event_data & token & H). exists path, event_data, token.
  unfold upserted. cbv zeta.
  by destruct (list_find marked (comments (hub w))) as [[i c]|].
Qed.

Lemma host_ok_upserted message w : host_ok (hub w) → host_ok (hub (upserted message w)).
Proof.
  intros Hok. unfold upserted. cbv zeta.
  destruct (list_find marked (comments (hub w))) as [[i c]|] eqn:Hfind; cbn [with_hub hub].
  - apply list_find_Some in Hfind as (Hi & _). by apply host_ok_edit.
  - by apply host_ok_create.
Qed.

(** After an upsert of a marked message, the first marked comment is the
    one that carries it. *)
Lemma first_marked_upserted message w :
  Py.startswith message marker = true →
  ∃ i cid,
    list_find marked (comments (hub (upserted message w)))
      = Some (i, {| id := cid; body := message |})
    ∧ match list_find marked (comments (hub w)) with
      | Some (j, c) => i = j ∧ cid = id c
      | None => i = length (comments (hub w)) ∧ cid = next_id (hub w)
      end.
Proof.
  intros Hm. unfold upserted. cbv zeta.
  destruct (list_find marked (comments (hub w))) as [[j c]|] eqn:Hfind;
    cbn [with_hub hub set_comments comments].
  - exists j, (id c). split; [|done].
    apply list_find_Some in Hfind as (Hj & Hc & Hbefore).
    apply list_find_Some. split; [|split; [exact Hm|]].
    + apply list_lookup_insert_eq. by apply lookup_lt_Some with c.
    + intros k y Hk Hlt. rewrite list_lookup_insert_ne in Hk by lia. eauto.
  - exists (length (comments (hub w))), (next_id (hub w)). split; [|done].
    apply list_find_None in Hfind.
    apply list_find_Some. split; [|split; [exact Hm|]].
    + rewrite lookup_app_r by lia. by rewrite Nat.sub_diag.
    + intros k y Hk Hlt. rewrite lookup_app_l in Hk by lia.
      rewrite Forall_forall in Hfind. apply Hfind.
      by apply list_elem_of_lookup_2 with k.
Qed.

Lemma upserted_found message w i c :
  list_find marked (comments (hub w)) = Some (i, c) →
  comments (hub (upserted message w))
  = <[i := {| id := id c; body := message |}]> (comments (hub w))
  ∧ api_log (upserted message w)
    = (api_log w ++ [GetRepo (repo_name (hub w)); GetPull (pull_number (hub w));
                     ListComments; GetComment (id c); EditComment (id c) message])%list.
Proof. intros H. unfold upserted. cbv zeta. by rewrite H. Qed.

Lemma upserted_same_host message w :
  repo_name (hub (upserted message w)) = repo_name (hub w)
  ∧ pull_number (hub (upserted message w)) = pull_number (hub w).
Proof.
  unfold upserted. cbv zeta.
  by destruct (list_find marked (comments (hub w))) as [[i c]|].
Qed.

(** X12. The order of the checks against the host: a rejected credential
    gives [BadCredentialsException] and an unknown repository
    [UnknownObjectException], both after the one request for the
    repository; only then is the pull-request number read from the event
    payload, a payload without it giving [KeyError('number')]; an unknown
    pull request gives [UnknownObjectException] after a second request. *)
Theorem create_comment_rejections message w path event_data token name :
  environ w !! "GITHUB_EVENT_PATH" = Some path →
  event_files w path = Json event_data →
  environ w !! "INPUT_REPO-TOKEN" = Some token →
  environ w !! "GITHUB_REPOSITORY" = Some name →
  (accepts (hub w) token = false →
   create_comment message w = (Raise BadCredentialsException, with_log [GetRepo name] w))
  ∧ (accepts (hub w) token = true → name ≠ repo_name (hub w) →
     create_comment message w = (Raise UnknownObjectException, with_log [GetRepo name] w))
  ∧ (accepts (hub w) token = true → name = repo_name (hub w) →
     event_data !! "number" = None →
     create_comment message w = (Raise (KeyError "number"), with_log [GetRepo name] w))
  ∧ (∀ number, accepts (hub w) token = true → name = repo_name (hub w) →
     event_data !! "number" = Some number → number ≠ pull_number (hub w) →
     create_comment message w
     = (Raise UnknownObjectException, with_log [GetRepo name; GetPull number] w)).
Proof.
  intros Hpath Hev Htok Hname. unfold create_comment.
  rewrite bind_getenv, Hpath, bind_read_event, Hev. cbn [load_json].
  rewrite bind_getenv, Htok, bind_getenv, Hname, bind_get_repo, logged_one.
  split; [by intros ->|]. split; [|split].
  - intros -> Hne. cbn [negb]. by rewrite bool_decide_false.
  - intros -> Heq Hnum. cbn [negb]. rewrite bool_decide_true by done.
    by rewrite bind_getitem, Hnum.
  - intros number -> Heq Hnum Hne. cbn [negb]. rewrite bool_decide_true by done.
    rewrite bind_getitem, Hnum, bind_get_pull, logged_with_log. cbn [with_log hub].
    by rewrite bool_decide_false.
Qed.

(** X13. What is missing locally is found before anything is sent: an
    unset [GITHUB_EVENT_PATH], an event file that cannot be loaded, an
    unset [INPUT_REPO-TOKEN] or [GITHUB_REPOSITORY] each make
    [create_comment] raise with the world untouched. *)
Theorem create_comment_unprepared message w :
  (environ w !! "GITHUB_EVENT_PATH" = None →
   create_comment message w = (Raise (KeyError "GITHUB_EVENT_PATH"), w))
  ∧ (∀ path e, environ w !! "GITHUB_EVENT_PATH" = Some path →
       load_json (event_files w path) = Raise e →
       create_comment message w = (Raise e, w))
  ∧ (∀ path event_data, environ w !! "GITHUB_EVENT_PATH" = Some path →
       event_files w path = Json event_data →
       environ w !! "INPUT_REPO-TOKEN" = None →
       create_comment message w = (Raise (KeyError "INPUT_REPO-TOKEN"), w))
  ∧ (∀ path event_data token, environ w !! "GITHUB_EVENT_PATH" = Some path →
       event_files w path = Json event_data →
       environ w !! "INPUT_REPO-TOKEN" = Some token →
       environ w !! "GITHUB_REPOSITORY" = None →
       create_comment message w = (Raise (KeyError "GITHUB_REPOSITORY"), w)).
Proof.
  unfold create_comment. rewrite bind_getenv. split; [by intros ->|].
  split; [|split].
  - intros path e -> Hload. by rewrite bind_read_event, Hload.
  - intros path event_data -> Hev Htok.
    rewrite bind_read_event, Hev. cbn [load_json]. by rewrite bind_getenv, Htok.
  - intros path event_data token -> Hev Htok Hrepo.
    rewrite bind_read_event, Hev. cbn [load_json].
    by rewrite bind_getenv, Htok, bind_getenv, Hrepo.
Qed.

(** X14. [create_comment] touches at most one comment: every comment other
    than the first marked one is afterwards where it was, as it was, and no
    comment is removed. *)
Theorem upsert_keeps_other_comments message w i c :
  host_ok (hub w) →
  comments (hub w) !! i = Some c →
  (∀ c', list_find marked (comments (hub w)) ≠ Some (i, c')) →
  comments (hub (create_comment message w).2) !! i = Some c
  ∧ (length (comments (hub w)) ≤ length (comments (hub (create_comment message w).2)))%nat.
Proof.
  intros (Hnd & _ & _) Hi Hother.
  destruct (create_comment_cases message w)
    as [(e' & calls & Hrun & Hp)|[(cid & Hfind & _ & Hrun)|[_ Hrun]]];
    rewrite Hrun; cbn [snd with_hub with_log hub set_comments comments].
  - done.
  - rewrite find_existing_list_find in Hfind.
    destruct (list_find marked (comments (hub w))) as [[j cj]|] eqn:Hj; [|done].
    injection Hfind as <-. cbn [snd].
    pose proof Hj as Hj'. apply list_find_Some in Hj' as (Hlj & _).
    rewrite (edit_body_insert _ j cj message Hnd Hlj). rewrite length_insert.
    split; [|done]. rewrite list_lookup_insert_ne; [done|].
    intros <-. by apply (Hother cj).
  - rewrite length_app. cbn. split; [|lia]. rewrite lookup_app_l; [done|].
    by apply lookup_lt_Some with c.
Qed.

(** X15. Two upserts in a row: the second finds the comment that carries
    the first message and edits it, without creating anything; the comments
    end up as if only the second upsert had taken place. *)
Theorem upsert_twice w m1 m2 :
  ready w → host_ok (hub w) → Py.startswith m1 marker = true →
  create_comment m1 w = (Ok tt, upserted m1 w)
  ∧ create_comment m2 (upserted m1 w) = (Ok tt, upserted m2 (upserted m1 w))
  ∧ (∃ i cid,
       list_find marked (comments (hub (upserted m1 w)))
         = Some (i, {| id := cid; body := m1 |})
       ∧ comments (hub (upserted m2 (upserted m1 w)))
         = <[i := {| id := cid; body := m2 |}]> (comments (hub (upserted m1 w)))
       ∧ api_log (upserted m2 (upserted m1 w))
         = (api_log (upserted m1 w)
              ++ [GetRepo (repo_name (hub w)); GetPull (pull_number (hub w));
                  ListComments; GetComment cid; EditComment cid m2])%list)
  ∧ comments (hub (upserted m2 (upserted m1 w))) = comments (hub (upserted m2 w)).
Proof.
  intros Hready Hok Hm1.
  split; [by apply create_comment_ok|].
  split; [apply create_comment_ok; [by apply ready_upserted | by apply host_ok_upserted]|].
  destruct (first_marked_upserted m1 w Hm1) as (i & cid & Hfirst & Hwhere).
  assert (comments (hub (upserted m2 (upserted m1 w)))
          = <[i := {| id := cid; body := m2 |}]> (comments (hub (upserted m1 w)))
          ∧ api_log (upserted m2 (upserted m1 w))
            = (api_log (upserted m1 w)
                 ++ [GetRepo (repo_name (hub w)); GetPull (pull_number (hub w));
                     ListComments; GetComment cid; EditComment cid m2])%list)
    as [Hcs Hlog].
  { destruct (upserted_found m2 (upserted m1 w) i _ Hfirst) as [Hcs Hlog].
    destruct (upserted_same_host m1 w) as [-> ->] in Hlog. done. }
  split; [by exists i, cid|].
  rewrite Hcs. unfold upserted. cbv zeta.
  destruct (list_find marked (comments (hub w))) as [[j c]|] eqn:Hfind;
    cbn [with_hub with_log hub set_comments comments] in *;
    destruct Hwhere as [-> ->].
  - by rewrite list_insert_insert_eq.
  - rewrite insert_app_r_alt by lia. by rewrite Nat.sub_diag.
Qed.

End upsert_more.

(** ** Orchestrator *)

Section orchestrator_more.

(** [create_comment] leaves everything but the host and the log alone. *)
Lemma create_comment_frame message w :
  pipfile_lock (create_comment message w).2 = pipfile_lock w
  ∧ stdout (create_comment message w).2 = stdout w
  ∧ environ (create_comment message w).2 = environ w.
Proof.
  destruct (create_comment_cases message w)
    as [(e' & calls & Hrun & Hp)|[(cid & _ & _ & Hrun)|[_ Hrun]]];
    by rewrite Hrun.
Qed.


(** X16. The environment is read as the run goes: the first of
    [GITHUB_BASE_REF], [INPUT_BASE-SHA], [INPUT_HEAD-SHA] that is unset
    ends the run with a [KeyError] for it, a non-zero exit status and no
    request sent; by then the fetch has run if it is the second, and the
    base revision has been checked out and parsed if it is the third. *)
Theorem run_missing_variable w name :
  (environ w !! "GITHUB_BASE_REF" = None ∧ name = "GITHUB_BASE_REF")
  ∨ (is_Some (environ w !! "GITHUB_BASE_REF")
     ∧ environ w !! "INPUT_BASE-SHA" = None ∧ name = "INPUT_BASE-SHA")
  ∨ (∃ base_ref base_sha base_deps,
       environ w !! "GITHUB_BASE_REF" = Some base_ref
       ∧ environ w !! "INPUT_BASE-SHA" = Some base_sha
       ∧ parse_lockfile (base_tree w base_ref base_sha) = Ok base_deps
       ∧ environ w !! "INPUT_HEAD-SHA" = None ∧ name = "INPUT_HEAD-SHA") →
  (run w).1 = Raise (KeyError name)
  ∧ exit_status (run w).1 ≠ 0%Z
  ∧ api_log (run w).2 = api_log w
  ∧ hub (run w).2 = hub w.
Proof.
  intros H.
  assert (∃ w', run w = (Raise (KeyError name), w')
                ∧ api_log w' = api_log w ∧ hub w' = hub w) as (w' & Hrun & Hlog & Hhub).
  { unfold run. rewrite bind_print, bind_getenv. cbn [print snd environ].
    destruct H as [[Href ->]|[([base_ref Href] & Hbase & ->)
                             |(base_ref & base_sha & base_deps & Href & Hbase & Hparse & Hhead & ->)]];
      rewrite Href; [by eexists|..];
      rewrite bind_subprocess_run, bind_getenv; cbn [subprocess_run snd environ];
      rewrite Hbase; [by eexists|].
    rewrite bind_print, bind_subprocess_run, bind_parse.
    cbn [print subprocess_run snd pipfile_lock git].
    change (git w ["git"; "checkout"; base_sha] _).2 with (base_tree w base_ref base_sha).
    rewrite Hparse, bind_getenv. cbn [environ]. rewrite Hhead. by eexists. }
  by rewrite Hrun.
Qed.


(** X18. Once the base lockfile has parsed and [INPUT_HEAD-SHA] is set, the
    run leaves the working tree as the checkout of the head revision left
    it, whatever happens afterwards: it never goes back to the revision it
    started on. *)
Theorem run_leaves_tree_on_head w base_ref base_sha head_sha base_deps :
  environ w !! "GITHUB_BASE_REF" = Some base_ref →
  environ w !! "INPUT_BASE-SHA" = Some base_sha →
  environ w !! "INPUT_HEAD-SHA" = Some head_sha →
  parse_lockfile (base_tree w base_ref base_sha) = Ok base_deps →
  pipfile_lock (run w).2 = head_tree w base_ref base_sha head_sha.
Proof.
  intros Href Hbase Hhead Hb.
  rewrite (run_front w base_ref base_sha head_sha base_deps Href Hbase Hhead Hb).
  destruct (parse_lockfile (head_tree w base_ref base_sha head_sha)) as [head_deps|e];
    [|done].
  case_bool_decide; [done|].
  match goal with |- context [create_comment ?m ?w2] =>
    destruct (create_comment_frame m w2) as (-> & _ & _) end.
  done.
Qed.

(** X19. When the checkout of the head revision leaves [Pipfile.lock] as the
    checkout of the base revision left it (both failed, say), nothing is
    ever sent to the host: the run reports no changes if that lockfile
    parses, and raises the parser's exception if it does not. *)
Theorem run_same_tree_is_silent w base_ref base_sha head_sha :
  environ w !! "GITHUB_BASE_REF" = Some base_ref →
  environ w !! "INPUT_BASE-SHA" = Some base_sha →
  environ w !! "INPUT_HEAD-SHA" = Some head_sha →
  head_tree w base_ref base_sha head_sha = base_tree w base_ref base_sha →
  api_log (run w).2 = api_log w
  ∧ hub (run w).2 = hub w
  ∧ match parse_lockfile (base_tree w base_ref base_sha) with
    | Ok _ => (run w).1 = Ok tt
              ∧ last (stdout (run w).2) = Some "No dependency changes."
    | Raise e => (run w).1 = Raise e
    end.
Proof.
  intros Href Hbase Hhead Hsame.
  destruct (parse_lockfile (base_tree w base_ref base_sha)) as [base_deps|e] eqn:Hb.
  - rewrite (run_front w base_ref base_sha head_sha base_deps Href Hbase Hhead Hb).
    rewrite Hsame, Hb. rewrite bool_decide_true by done.
    unfold print. cbn [fst snd api_log hub stdout]. by rewrite last_snoc.
  - destruct (run_base_unparsed w base_ref base_sha e Href Hbase Hb) as (? & ? & ?).
    done.
Qed.

End orchestrator_more.

(** ** Concrete runs of the further properties *)

Section concrete_more.
Import Example.

Ltac compute_it := apply (bool_decide_unpack _); vm_compute; exact I.

Lemma parse_missing_group_witness :
  parse_lockfile (Json {[ "default" := pinned "foo" "==1.0.0" ]})
  = Raise (KeyError "develop").
Proof.
  apply (parse_missing_group {[ "default" := pinned "foo" "==1.0.0" ]} "develop").
  right. exists (pinned "foo" "==1.0.0").
  split; [vm_compute; reflexivity|]. split; [compute_it|].
  split; [vm_compute; reflexivity | reflexivity].
Defined.

Lemma parse_ok_iff_usable_witness :
  parse_lockfile (lock (<[ "foo" := {[ "hashes" := "sha256" ]} ]> (pinned "bar" "==1.0")) ∅)
  = Raise (KeyError "version").
Proof.
  destruct (parse_ok_iff_usable
              (<[ "default" := <[ "foo" := {[ "hashes" := "sha256" ]} ]> (pinned "bar" "==1.0") ]>
                 (<[ "develop" := ∅ ]> ∅))
              (<[ "foo" := {[ "hashes" := "sha256" ]} ]> (pinned "bar" "==1.0")) ∅)
    as [_ [_ Hraise]]; [vm_compute; reflexivity..|].
  apply Hraise.
  assert (¬ map_Forall (fun (_ : string) (m : meta) => usable m)
            (<[ "foo" := {[ "hashes" := "sha256" ]} ]> (pinned "bar" "==1.0")))
    as Hn by compute_it.
  intros [Hall _]. exact (Hn Hall).
Defined.

Lemma parse_ignores_other_keys_witness :
  parse_lockfile (Json (<[ "_meta" := ∅ ]> both_groups)) = parse_lockfile (Json both_groups).
Proof.
  destruct (parse_ignores_other_keys both_groups "_meta" ∅) as [Hins _];
    [compute_it..|]. exact Hins.
Defined.

Lemma create_comment_rejections_witness :
  create_comment foo_changed
    (setenv "INPUT_REPO-TOKEN" "wrong" (healthy lock_v1 lock_v2 thread))
  = (Raise BadCredentialsException,
     with_log [GetRepo "o/r"]
       (setenv "INPUT_REPO-TOKEN" "wrong" (healthy lock_v1 lock_v2 thread))).
Proof.
  destruct (create_comment_rejections foo_changed
              (setenv "INPUT_REPO-TOKEN" "wrong" (healthy lock_v1 lock_v2 thread))
              "/event.json" {[ "number" := 7%Z ]} "wrong" "o/r")
    as [Hbad _]; [vm_compute; reflexivity..|].
  apply Hbad. vm_compute. reflexivity.
Defined.

Lemma upsert_keeps_other_comments_witness :
  comments (hub (create_comment foo_changed (healthy lock_v1 lock_v2 thread)).2) !! 2%nat
  = Some {| id := 9; body := marker ++ " stale" |}.
Proof.
  destruct (upsert_keeps_other_comments foo_changed (healthy lock_v1 lock_v2 thread)
              2 {| id := 9; body := marker ++ " stale" |}) as [Hkept _].
  - compute_it.
  - vm_compute. reflexivity.
  - intros c' H. vm_compute in H. discriminate H.
  - exact Hkept.
Defined.

Lemma upsert_twice_witness :
  comments (hub (upserted (header ++ fenced "Added" "bar==1.0")
                   (upserted foo_changed (healthy lock_v1 lock_v2 []))))
  = [ {| id := 100; body := header ++ fenced "Added" "bar==1.0" |} ].
Proof.
  destruct (upsert_twice (healthy lock_v1 lock_v2 []) foo_changed
              (header ++ fenced "Added" "bar==1.0")) as (_ & _ & _ & Hsame).
  - exists "/event.json", {[ "number" := 7%Z ]}, "secret".
    repeat split; vm_compute; reflexivity.
  - compute_it.
  - vm_compute. reflexivity.
  - rewrite Hsame. vm_compute. reflexivity.
Defined.

Lemma run_missing_variable_witness :
  (run (unsetenv "INPUT_BASE-SHA" (healthy lock_v1 lock_v2 thread))).1
  = Raise (KeyError "INPUT_BASE-SHA")
  ∧ api_log (run (unsetenv "INPUT_BASE-SHA" (healthy lock_v1 lock_v2 thread))).2 = [].
Proof.
  destruct (run_missing_variable (unsetenv "INPUT_BASE-SHA" (healthy lock_v1 lock_v2 thread))
              "INPUT_BASE-SHA") as (Hrun & _ & Hlog & _).
  - right; left. split; [by exists "main"|]. split; [vm_compute; reflexivity | reflexivity].
  - split; [exact Hrun | exact Hlog].
Defined.


Lemma run_leaves_tree_on_head_witness :
  pipfile_lock (run (healthy lock_v1 NotJson thread)).2 = NotJson.
Proof.
  rewrite (run_leaves_tree_on_head (healthy lock_v1 NotJson thread) "main" "aaa" "bbb"
             {[ "foo" := "1.0.0" ]}); vm_compute; reflexivity.
Defined.

Lemma run_same_tree_is_silent_witness :
  (run no_revisions).1 = Ok tt ∧ api_log (run no_revisions).2 = []
  ∧ comments (hub (run no_revisions).2) = thread.
Proof.
  destruct (run_same_tree_is_silent no_revisions "main" "aaa" "bbb")
    as (Hlog & Hhub & Hres); [vm_compute; reflexivity..|].
  change (parse_lockfile (base_tree no_revisions "main" "aaa"))
    with (parse_lockfile lock_v1) in Hres.
  assert (parse_lockfile lock_v1 = Ok {[ "foo" := "1.0.0" ]}) as Hp
    by (vm_compute; reflexivity).
  rewrite Hp in Hres. destruct Hres as [Hrun _].
  split; [exact Hrun|]. rewrite Hlog, Hhub. split; reflexivity.
Defined.

End concrete_more.
